(** * Seismi BLE data collector

    A shallow embedding of [BLEDataCollector] (seismi.ts, the revision with
    the two sliding buffers): the notification handler that decodes a packet,
    reconstructs the per-sample timestamps, appends to the per-sensor buffers
    and to the CSV row log, the two buffer trims, [stop], the buffer accessors
    and the CSV export.

    Modelling choices.
    - A [DataView] is the list of its bytes; [getUint8] outside the view
      throws a [RangeError], which is the [None] of the monad below.
    - JavaScript numbers.  Every number the collector computes is an integer
      or an integer plus one half (the PPG period is 2.5 ms), far below 2^52,
      where binary64 arithmetic on such numbers is exact.  Integers are [Z]; timestamps are
      [Num.t], the number [halves / 2].
    - [genesisTS] is an object used as a map from the type byte to a number;
      [null] and [undefined] are both the absence of a binding, since the code
      only tests the entry for falsiness and reads it through [?? 0].
    - [accDataPoints] and [ppgDataPoints] are references to arrays: the
      accessors and the data callback hand these references out, so the
      arrays live in a store and the collector holds their locations.
    - [Date.now()] is an argument of the handler: a reading of the wall
      clock, in milliseconds since 1970.  The handler tests a stored genesis
      for truthiness, so a reading of exactly 0 would count as unset; where
      a statement depends on it, the readings are assumed to be non-zero.
    - The BLE handshake ([connect], [startNotifications]) is reduced to its
      effect on [device.gatt.connected]; console output is dropped, except
      that [downloadCSV] returns the text it logs. *)

From Stdlib Require Import ZArith QArith Lia.
From Stdlib.Strings Require Import Byte Ascii.
From stdpp Require Import gmap list strings pretty.

Local Open Scope Z_scope.

(** * The program *)

(** ** Numbers with at most one binary fractional digit *)

Module Num.

Record t : Type := mk { halves : Z }.

Definition of_Z (z : Z) : t := mk (2 * z).
Definition half_of (z : Z) : t := mk z.
Definition add (a b : t) : t := mk (halves a + halves b).
Definition sub (a b : t) : t := mk (halves a - halves b).
(** [scale n a] is the product [n * a] of an integer and a number. *)
Definition scale (n : Z) (a : t) : t := mk (n * halves a).
(** [geb a b] is the comparison [a >= b]. *)
Definition geb (a b : t) : bool := halves b <=? halves a.
Definition le (a b : t) : Prop := halves a <= halves b.
Definition lt (a b : t) : Prop := halves a < halves b.

(** The rational number denoted. *)
Definition to_Q (a : t) : Q := (halves a # 2)%Q.

(** [Number.prototype.toString] on these values (below 1e21, where
    JavaScript prints plain decimals). *)
Definition to_string (a : t) : string :=
  let h := halves a in
  if Z.even h then pretty (h / 2)
  else (if h <? 0 then "-" else EmptyString) +:+ pretty (Z.abs h / 2) +:+ ".5".

End Num.

(** ** Constants *)

Definition PACKET_TYPE_ACC : Z := 1.
Definition PACKET_TYPE_PPG : Z := 2.

Definition ACC_SAMPLE_PERIOD_MS : Num.t := Num.of_Z 16.
(** 2.5 *)
Definition PPG_SAMPLE_PERIOD_MS : Num.t := Num.half_of 5.

Definition BUFFER_DURATION_MS : Num.t := Num.of_Z (60 * 1000).

(** ** Data *)

Record SensorDataPoint : Type := {
  timestamp_ms : Num.t;
  value : Z;
  type : Z
}.

(** A cell of [csvRows : (string | number)[][]]. *)
Inductive cell : Type :=
  | CStr (s : string)
  | CNum (n : Num.t).

(** A reference to an array of data points: its index in the store. *)
Abbreviation loc := nat (only parsing).

(** The fields of the collector.  [gattConnected] is
    [this.device?.gatt?.connected]; [onDataCallback] tells whether a
    listener is registered. *)
Record BLEDataCollector : Type := {
  gattConnected : bool;
  genesisTS : gmap Z Z;
  csvRows : list (list cell);
  accDataPoints : loc;
  ppgDataPoints : loc;
  collectingType : option Z;
  onDataCallback : bool
}.

(** The arrays of data points allocated so far, and the collector. *)
Record World : Type := {
  arrays : list (list SensorDataPoint);
  this : BLEDataCollector
}.

Definition set_gattConnected (b : bool) (c : BLEDataCollector) : BLEDataCollector :=
  {| gattConnected := b; genesisTS := genesisTS c; csvRows := csvRows c;
     accDataPoints := accDataPoints c; ppgDataPoints := ppgDataPoints c;
     collectingType := collectingType c; onDataCallback := onDataCallback c |}.

Definition set_genesisTS (g : gmap Z Z) (c : BLEDataCollector) : BLEDataCollector :=
  {| gattConnected := gattConnected c; genesisTS := g; csvRows := csvRows c;
     accDataPoints := accDataPoints c; ppgDataPoints := ppgDataPoints c;
     collectingType := collectingType c; onDataCallback := onDataCallback c |}.

Definition set_csvRows (r : list (list cell)) (c : BLEDataCollector) : BLEDataCollector :=
  {| gattConnected := gattConnected c; genesisTS := genesisTS c; csvRows := r;
     accDataPoints := accDataPoints c; ppgDataPoints := ppgDataPoints c;
     collectingType := collectingType c; onDataCallback := onDataCallback c |}.

Definition set_accDataPoints (l : loc) (c : BLEDataCollector) : BLEDataCollector :=
  {| gattConnected := gattConnected c; genesisTS := genesisTS c; csvRows := csvRows c;
     accDataPoints := l; ppgDataPoints := ppgDataPoints c;
     collectingType := collectingType c; onDataCallback := onDataCallback c |}.

Definition set_ppgDataPoints (l : loc) (c : BLEDataCollector) : BLEDataCollector :=
  {| gattConnected := gattConnected c; genesisTS := genesisTS c; csvRows := csvRows c;
     accDataPoints := accDataPoints c; ppgDataPoints := l;
     collectingType := collectingType c; onDataCallback := onDataCallback c |}.

Definition set_collectingType (t : option Z) (c : BLEDataCollector) : BLEDataCollector :=
  {| gattConnected := gattConnected c; genesisTS := genesisTS c; csvRows := csvRows c;
     accDataPoints := accDataPoints c; ppgDataPoints := ppgDataPoints c;
     collectingType := t; onDataCallback := onDataCallback c |}.

Definition set_onDataCallback (b : bool) (c : BLEDataCollector) : BLEDataCollector :=
  {| gattConnected := gattConnected c; genesisTS := genesisTS c; csvRows := csvRows c;
     accDataPoints := accDataPoints c; ppgDataPoints := ppgDataPoints c;
     collectingType := collectingType c; onDataCallback := b |}.

(** ** The monad of methods: state, and [None] for a thrown exception *)

Definition M (A : Type) : Type := World → option (A * World).

#[global] Instance M_ret : MRet M := λ A a w, Some (a, w).
#[global] Instance M_bind : MBind M := λ A B f m w,
  match m w with
  | Some (a, w') => f a w'
  | None => None
  end.

(** A thrown exception. *)
Definition throw {A : Type} : M A := λ _, None.

Definition lift {A : Type} (o : option A) : M A :=
  match o with
  | Some a => mret a
  | None => throw
  end.

(** Read a field of [this]. *)
Definition field {A : Type} (f : BLEDataCollector → A) : M A :=
  λ w, Some (f (this w), w).

(** Assign a field of [this]. *)
Definition assign (f : BLEDataCollector → BLEDataCollector) : M unit :=
  λ w, Some (tt, {| arrays := arrays w; this := f (this w) |}).

(** The elements of the array behind a reference ([None] for a location
    that was never allocated, which no method produces). *)
Definition array_read (l : loc) : M (list SensorDataPoint) :=
  λ w, match arrays w !! l with
       | Some a => Some (a, w)
       | None => None
       end.

(** Overwrite the elements of the array behind a reference, in place. *)
Definition array_write (l : loc) (a : list SensorDataPoint) : M unit :=
  λ w, match arrays w !! l with
       | Some _ => Some (tt, {| arrays := <[l := a]> (arrays w); this := this w |})
       | None => None
       end.

(** [arr.push(x)]: in place. *)
Definition array_push (l : loc) (x : SensorDataPoint) : M unit :=
  a ← array_read l; array_write l (a ++ [x]).

(** A new array, as [slice] and the array literals make. *)
Definition array_new (a : list SensorDataPoint) : M loc :=
  λ w, Some (length (arrays w), {| arrays := arrays w ++ [a]; this := this w |}).

(** [this.csvRows.push(row)]. *)
Definition csv_push (row : list cell) : M unit :=
  assign (λ c, set_csvRows (csvRows c ++ [row]) c).

(** ** JavaScript operators *)

Definition ToInt32 (z : Z) : Z :=
  let m := z mod 2 ^ 32 in
  if m <? 2 ^ 31 then m else m - 2 ^ 32.

(** [a << n] *)
Definition js_shl (a n : Z) : Z := ToInt32 (Z.shiftl (ToInt32 a) (n mod 32)).

(** [a | b] *)
Definition js_or (a b : Z) : Z := ToInt32 (Z.lor (ToInt32 a) (ToInt32 b)).

(** [!v] for an entry of [genesisTS]: missing, [null] and [0] are falsy. *)
Definition falsy (v : option Z) : bool :=
  match v with
  | None => true
  | Some n => n =? 0
  end.

(** [v ?? d] *)
Definition nullish (v : option Z) (d : Z) : Z :=
  match v with
  | None => d
  | Some n => n
  end.

(** [Array.prototype.findIndex], [-1] when no element satisfies [p]. *)
Fixpoint findIndex_from {A : Type} (p : A → bool) (arr : list A) (i : Z) : Z :=
  match arr with
  | [] => -1
  | d :: rest => if p d then i else findIndex_from p rest (i + 1)
  end.

Definition findIndex {A : Type} (p : A → bool) (arr : list A) : Z :=
  findIndex_from p arr 0.

(** [Array.prototype.slice(start)]: the elements from [start] on, counted
    from the end when [start] is negative. *)
Definition slice {A : Type} (start : Z) (arr : list A) : list A :=
  let len := Z.of_nat (length arr) in
  let k := if start <? 0 then Z.max (len + start) 0 else Z.min start len in
  drop (Z.to_nat k) arr.

(** [Array.prototype.join] on strings. *)
Fixpoint join (sep : string) (l : list string) : string :=
  match l with
  | [] => EmptyString
  | [s] => s
  | s :: rest => s +:+ sep +:+ join sep rest
  end.

Definition cell_to_string (c : cell) : string :=
  match c with
  | CStr s => s
  | CNum n => Num.to_string n
  end.

(** ** DataView *)

Definition getUint8 (dataView : list byte) (byteOffset : Z) : option Z :=
  if byteOffset <? 0 then None
  else (λ b, Z.of_N (Byte.to_N b)) <$> dataView !! Z.to_nat byteOffset.

(** [getUint16(byteOffset, true)]: little-endian. *)
Definition getUint16 (dataView : list byte) (byteOffset : Z) : option Z :=
  match getUint8 dataView byteOffset, getUint8 dataView (byteOffset + 1) with
  | Some lo, Some hi => Some (lo + hi * 256)
  | _, _ => None
  end.

(** ** The collector's methods *)

(** [new BLEDataCollector()], with its two empty arrays. *)
Definition initial : World :=
  {| arrays := [[]; []];
     this := {| gattConnected := false; genesisTS := ∅; csvRows := [];
                accDataPoints := 0%nat; ppgDataPoints := 1%nat;
                collectingType := None; onDataCallback := false |} |}.

(** [onData(callback)]: only the presence of the listener is kept. *)
Definition onData : M unit := assign (set_onDataCallback true).

(** The accessors return the reference held by the collector. *)
Definition getAccData : M loc := field accDataPoints.

Definition getPpgData : M loc := field ppgDataPoints.

(** [connect()], reduced to the connection flag. *)
Definition connect : M unit := assign (set_gattConnected true).

Definition trimAccBuffer : M unit :=
  l ← field accDataPoints;
  arr ← array_read l;
  if (length arr =? 0)%nat then mret tt else
  latest ← lift (arr !! (length arr - 1)%nat);
  let latestTs := timestamp_ms latest in
  let cutoffTs := Num.sub latestTs BUFFER_DURATION_MS in
  let firstValidIndex := findIndex (λ d, Num.geb (timestamp_ms d) cutoffTs) arr in
  if 0 <? firstValidIndex then
    l' ← array_new (slice firstValidIndex arr);
    assign (set_accDataPoints l')
  else mret tt.

Definition trimPpgBuffer : M unit :=
  l ← field ppgDataPoints;
  arr ← array_read l;
  if (length arr =? 0)%nat then mret tt else
  latest ← lift (arr !! (length arr - 1)%nat);
  let latestTs := timestamp_ms latest in
  let cutoffTs := Num.sub latestTs BUFFER_DURATION_MS in
  let firstValidIndex := findIndex (λ d, Num.geb (timestamp_ms d) cutoffTs) arr in
  if 0 <? firstValidIndex then
    l' ← array_new (slice firstValidIndex arr);
    assign (set_ppgDataPoints l')
  else mret tt.

(** The body of the sample loop, at index [i]. *)
Definition sample_body (dataView : list byte) (packetType packetCounter i : Z) : M unit :=
  let offset := 3 + i * 3 in
  b0 ← lift (getUint8 dataView offset);
  b1 ← lift (getUint8 dataView (offset + 1));
  b2 ← lift (getUint8 dataView (offset + 2));
  let value := js_or (js_or b0 (js_shl b1 8)) (js_shl b2 16) in
  (if packetType =? PACKET_TYPE_ACC then
     g ← field genesisTS;
     let ts := Num.add (Num.of_Z (nullish (g !! PACKET_TYPE_ACC) 0))
                 (Num.scale (packetCounter * 5 + i) ACC_SAMPLE_PERIOD_MS) in
     csv_push [CNum ts; CNum (Num.of_Z value)];;
     l ← field accDataPoints;
     array_push l {| timestamp_ms := ts; value := value; type := PACKET_TYPE_ACC |}
   else mret tt);;
  (if packetType =? PACKET_TYPE_PPG then
     g ← field genesisTS;
     let ts := Num.add (Num.of_Z (nullish (g !! PACKET_TYPE_PPG) 0))
                 (Num.scale (packetCounter * 5 + i) PPG_SAMPLE_PERIOD_MS) in
     csv_push [CNum ts; CNum (Num.of_Z value)];;
     l ← field ppgDataPoints;
     array_push l {| timestamp_ms := ts; value := value; type := PACKET_TYPE_PPG |}
   else mret tt).

(** [for (let i = ...; i < sampleCount; i++)], with [remaining] iterations
    to go from index [i]. *)
Fixpoint sample_loop (dataView : list byte) (packetType packetCounter i : Z)
    (remaining : nat) : M unit :=
  match remaining with
  | O => mret tt
  | S n =>
      sample_body dataView packetType packetCounter i;;
      sample_loop dataView packetType packetCounter (i + 1) n
  end.

(** The result is the array handed to the data callback, if one is
    registered and the packet was not dropped. *)
Definition handleNotification (now : Z) (dataView : list byte) : M (option loc) :=
  let byteLength := Z.of_nat (length dataView) in
  if byteLength <? 3 then mret None else
  packetType ← lift (getUint8 dataView 0);
  packetCounter ← lift (getUint16 dataView 1);
  let sampleCount := (byteLength - 3) / 3 in
  if sampleCount <=? 0 then mret None else
  g ← field genesisTS;
  (if falsy (g !! packetType) then
     assign (λ c, set_genesisTS (<[packetType := now]> (genesisTS c)) c);;
     (if packetType =? PACKET_TYPE_ACC
      then csv_push [CStr "timestamp_ms"; CStr "magnitude_ug"]
      else csv_push [CStr "timestamp_ms"; CStr "green"]);;
     assign (set_collectingType (Some packetType))
   else mret tt);;
  sample_loop dataView packetType packetCounter 0 (Z.to_nat sampleCount);;
  trimAccBuffer;;
  trimPpgBuffer;;
  cb ← field onDataCallback;
  if (cb : bool) then l ← field accDataPoints; mret (Some l) else mret None.

Definition stop : M unit :=
  connected ← field gattConnected;
  if (connected : bool) then assign (set_gattConnected false) else mret tt.

Definition newline : string := String "010"%char EmptyString.

(** [downloadCSV()]: the text written to the console. *)
Definition downloadCSV : M string :=
  rows ← field csvRows;
  mret (join newline (map (λ r, join "," (map cell_to_string r)) rows)).

(** * Definitions for the statements *)

(** ** Views of a world *)

(** The elements seen through a reference (nothing for a reference that
    was never allocated). *)
Definition contents (w : World) (l : loc) : list SensorDataPoint :=
  default [] (arrays w !! l).

Definition accData (w : World) : list SensorDataPoint :=
  contents w (accDataPoints (this w)).

Definition ppgData (w : World) : list SensorDataPoint :=
  contents w (ppgDataPoints (this w)).

(** ** The function computed by the trims *)

(** What the trims leave of an array: the function computed by
    [trimAccBuffer] and [trimPpgBuffer] on the elements. *)
Definition firstValid (arr : list SensorDataPoint) (latest : SensorDataPoint) : Z :=
  findIndex
    (λ d, Num.geb (timestamp_ms d) (Num.sub (timestamp_ms latest) BUFFER_DURATION_MS))
    arr.

Definition trimmed (arr : list SensorDataPoint) : list SensorDataPoint :=
  match last arr with
  | None => arr
  | Some latest =>
      if 0 <? firstValid arr latest then slice (firstValid arr latest) arr else arr
  end.

Definition in_window (latest d : SensorDataPoint) : bool :=
  Num.geb (timestamp_ms d) (Num.sub (timestamp_ms latest) BUFFER_DURATION_MS).

(** Timestamps never decrease along the array. *)
Definition ascending (arr : list SensorDataPoint) : Prop :=
  ∀ (i j : nat) (a b : SensorDataPoint),
    (i ≤ j)%nat → arr !! i = Some a → arr !! j = Some b →
    Num.le (timestamp_ms a) (timestamp_ms b).

(** [kept] is what remains of [arr] after a trim that respects the
    window: a prefix [dropped] went, all of it older than the cutoff (the
    latest timestamp minus 60000 ms), everything kept is at or after the
    cutoff, and any two kept entries are at most 60000 ms apart. *)
Definition window (arr kept : list SensorDataPoint) : Prop :=
  ∃ dropped : list SensorDataPoint,
    arr = dropped ++ kept ∧
    (∀ latest : SensorDataPoint,
       last arr = Some latest →
       Forall (λ d, Num.lt (timestamp_ms d)
                      (Num.sub (timestamp_ms latest) BUFFER_DURATION_MS)) dropped ∧
       Forall (λ d, Num.le (Num.sub (timestamp_ms latest) BUFFER_DURATION_MS)
                      (timestamp_ms d)) kept) ∧
    ∀ a b : SensorDataPoint,
      a ∈ kept → b ∈ kept →
      Num.le (Num.sub (timestamp_ms a) (timestamp_ms b)) BUFFER_DURATION_MS.

(** ** What a packet carries *)

Definition u8 (b : byte) : Z := Z.of_N (Byte.to_N b).

Definition byte_at (dataView : list byte) (k : Z) : Z :=
  u8 (nth (Z.to_nat k) dataView x00).

Definition packetType_of (dataView : list byte) : Z := byte_at dataView 0.

Definition packetCounter_of (dataView : list byte) : Z :=
  byte_at dataView 1 + byte_at dataView 2 * 256.

Definition sampleCount_of (dataView : list byte) : Z :=
  (Z.of_nat (length dataView) - 3) / 3.

(** The packets that the handler does not drop. *)
Definition valid_packet (dataView : list byte) : bool :=
  (3 <=? Z.of_nat (length dataView)) && (0 <? sampleCount_of dataView).

(** The [i]-th 24-bit little-endian group of the payload. *)
Definition sample_at (dataView : list byte) (i : Z) : Z :=
  byte_at dataView (3 + i * 3) + byte_at dataView (3 + i * 3 + 1) * 2 ^ 8 +
  byte_at dataView (3 + i * 3 + 2) * 2 ^ 16.

(** The data point of index [i], from a genesis and a sample period. *)
Definition decoded_point (genesis : Z) (period : Num.t) (packetType : Z)
    (dataView : list byte) (i : Z) : SensorDataPoint :=
  {| timestamp_ms :=
       Num.add (Num.of_Z genesis)
         (Num.scale (packetCounter_of dataView * 5 + i) period);
     value := sample_at dataView i;
     type := packetType |}.

Definition decoded_points (genesis : Z) (period : Num.t) (packetType : Z)
    (dataView : list byte) (from count : Z) : list SensorDataPoint :=
  decoded_point genesis period packetType dataView <$> seqZ from count.

(** The row logged for a data point. *)
Definition row_of (p : SensorDataPoint) : list cell :=
  [CNum (timestamp_ms p); CNum (Num.of_Z (value p))].

(** ** Worlds along one notification *)

Record allocated (w : World) : Prop := {
  acc_allocated : (accDataPoints (this w) < length (arrays w))%nat;
  ppg_allocated : (ppgDataPoints (this w) < length (arrays w))%nat;
  acc_ppg_distinct : accDataPoints (this w) ≠ ppgDataPoints (this w)
}.

(** The world after a trim that evicted entries: the kept entries are a
    new array, to which the collector's field is rebound. *)
Definition rebound_acc (w : World) (kept : list SensorDataPoint) : World :=
  {| arrays := arrays w ++ [kept];
     this := set_accDataPoints (length (arrays w)) (this w) |}.

Definition rebound_ppg (w : World) (kept : list SensorDataPoint) : World :=
  {| arrays := arrays w ++ [kept];
     this := set_ppgDataPoints (length (arrays w)) (this w) |}.

(** The world after the points [ps] were pushed to the array [l] and their
    rows to the log. *)
Definition pushed (l : loc) (ps : list SensorDataPoint) (w : World) : World :=
  {| arrays := <[l := contents w l ++ ps]> (arrays w);
     this := set_csvRows (csvRows (this w) ++ (row_of <$> ps)) (this w) |}.

Definition header_row (packetType : Z) : list cell :=
  if packetType =? PACKET_TYPE_ACC
  then [CStr "timestamp_ms"; CStr "magnitude_ug"]
  else [CStr "timestamp_ms"; CStr "green"].

(** The world after the genesis step of the handler. *)
Definition with_genesis (now packetType : Z) (w : World) : World :=
  if falsy (genesisTS (this w) !! packetType) then
    {| arrays := arrays w;
       this :=
         set_collectingType (Some packetType)
           (set_csvRows (csvRows (this w) ++ [header_row packetType])
              (set_genesisTS (<[packetType := now]> (genesisTS (this w))) (this w))) |}
  else w.

(** The points that a packet adds for the sensor type [which]. *)
Definition new_points (g : gmap Z Z) (dataView : list byte) (which : Z)
    (period : Num.t) : list SensorDataPoint :=
  if packetType_of dataView =? which
  then decoded_points (nullish (g !! which) 0) period which dataView 0
         (sampleCount_of dataView)
  else [].

Record trims (w w' : World) : Prop := {
  trims_this :
    this w' = set_ppgDataPoints (ppgDataPoints (this w'))
                (set_accDataPoints (accDataPoints (this w')) (this w));
  trims_old :
    ∀ l : loc, (l < length (arrays w))%nat → arrays w' !! l = arrays w !! l;
  trims_acc : accData w' = trimmed (accData w);
  trims_ppg : ppgData w' = trimmed (ppgData w);
  trims_acc_ref :
    trimmed (accData w) = accData w → accDataPoints (this w') = accDataPoints (this w);
  trims_ppg_ref :
    trimmed (ppgData w) = ppgData w → ppgDataPoints (this w') = ppgDataPoints (this w);
  trims_acc_new :
    trimmed (accData w) ≠ accData w → (length (arrays w) ≤ accDataPoints (this w'))%nat;
  trims_ppg_new :
    trimmed (ppgData w) ≠ ppgData w → (length (arrays w) ≤ ppgDataPoints (this w'))%nat;
  trims_allocated : allocated w';
  trims_same :
    trimmed (accData w) = accData w → trimmed (ppgData w) = ppgData w → w' = w
}.

(** What the handler does with a packet that it does not drop, from world
    [w] to world [w'] with result [r]. *)
Record handled (now : Z) (dataView : list byte) (w : World) (r : option loc)
    (w' : World) : Prop := {
  handled_genesis :
    genesisTS (this w') =
    genesisTS (this (with_genesis now (packetType_of dataView) w));
  handled_rows :
    csvRows (this w') =
    csvRows (this (with_genesis now (packetType_of dataView) w)) ++
    (row_of <$>
       (new_points (genesisTS (this w')) dataView PACKET_TYPE_ACC ACC_SAMPLE_PERIOD_MS ++
        new_points (genesisTS (this w')) dataView PACKET_TYPE_PPG PPG_SAMPLE_PERIOD_MS));
  handled_acc :
    accData w' =
    trimmed (accData w ++
             new_points (genesisTS (this w')) dataView PACKET_TYPE_ACC
               ACC_SAMPLE_PERIOD_MS);
  handled_ppg :
    ppgData w' =
    trimmed (ppgData w ++
             new_points (genesisTS (this w')) dataView PACKET_TYPE_PPG
               PPG_SAMPLE_PERIOD_MS);
  handled_acc_old :
    contents w' (accDataPoints (this w)) =
    accData w ++
    new_points (genesisTS (this w')) dataView PACKET_TYPE_ACC ACC_SAMPLE_PERIOD_MS;
  handled_ppg_old :
    contents w' (ppgDataPoints (this w)) =
    ppgData w ++
    new_points (genesisTS (this w')) dataView PACKET_TYPE_PPG PPG_SAMPLE_PERIOD_MS;
  handled_acc_ref :
    trimmed (contents w' (accDataPoints (this w))) = contents w' (accDataPoints (this w)) →
    accDataPoints (this w') = accDataPoints (this w);
  handled_ppg_ref :
    trimmed (contents w' (ppgDataPoints (this w))) = contents w' (ppgDataPoints (this w)) →
    ppgDataPoints (this w') = ppgDataPoints (this w);
  handled_acc_new :
    trimmed (contents w' (accDataPoints (this w))) ≠ contents w' (accDataPoints (this w)) →
    (length (arrays w) ≤ accDataPoints (this w'))%nat;
  handled_ppg_new :
    trimmed (contents w' (ppgDataPoints (this w))) ≠ contents w' (ppgDataPoints (this w)) →
    (length (arrays w) ≤ ppgDataPoints (this w'))%nat;
  handled_others :
    ∀ l : loc,
      (l < length (arrays w))%nat →
      l ≠ accDataPoints (this w) → l ≠ ppgDataPoints (this w) →
      arrays w' !! l = arrays w !! l;
  handled_connected : gattConnected (this w') = gattConnected (this w);
  handled_callback : onDataCallback (this w') = onDataCallback (this w);
  handled_collecting :
    collectingType (this w') =
    collectingType (this (with_genesis now (packetType_of dataView) w));
  handled_result :
    r = if onDataCallback (this w) then Some (accDataPoints (this w')) else None;
  handled_allocated : allocated w'
}.

(** ** Sessions *)

(** What happens to a collector: a notification delivered at wall-clock
    time [now], and the calls made by the application. *)
Inductive event : Type :=
  | Notification (now : Z) (dataView : list byte)
  | Connect
  | OnData
  | Stop.

Definition perform (e : event) : M unit :=
  match e with
  | Notification now dataView => handleNotification now dataView;; mret tt
  | Connect => connect
  | OnData => onData
  | Stop => stop
  end.

Fixpoint perform_all (es : list event) : M unit :=
  match es with
  | [] => mret tt
  | e :: rest => perform e;; perform_all rest
  end.

(** The worlds a collector can be in, when only its own methods touch its
    arrays. *)
Definition reachable (w : World) : Prop :=
  ∃ es : list event, perform_all es initial = Some (tt, w).

(** The genesis of sensor type [t] according to a session: the clock at
    the first packet of type [t] that is not dropped. *)
Fixpoint first_genesis (t : Z) (es : list event) : option Z :=
  match es with
  | [] => None
  | Notification now dataView :: rest =>
      if valid_packet dataView && (packetType_of dataView =? t)
      then Some now
      else first_genesis t rest
  | _ :: rest => first_genesis t rest
  end.

(** The clock readings of a session. *)
Fixpoint clocks (es : list event) : list Z :=
  match es with
  | [] => []
  | Notification now _ :: rest => now :: clocks rest
  | _ :: rest => clocks rest
  end.

(** The readings of [Date.now()] in a session are those of a wall clock,
    milliseconds since 1970: none of them is 0. *)
Definition wall_clock (es : list event) : Prop :=
  Forall (λ now, now ≠ 0) (clocks es).

(** ** Settled worlds *)

Record settled (w : World) : Prop := {
  settled_allocated : allocated w;
  settled_acc : trimmed (accData w) = accData w;
  settled_ppg : trimmed (ppgData w) = ppgData w
}.

(** ** The application's poll (App.tsx) *)

Definition WINDOW_SECONDS : Z := 30.

(** What the polling timer computes from the ACC buffer for the chart: the
    entries within [WINDOW_SECONDS] of the latest one, as a new array;
    [None] when the buffer is empty and the chart is left as it is. *)
Definition pollAcc : M (option (list SensorDataPoint)) :=
  l ← getAccData;
  accData ← array_read l;
  if (0 <? length accData)%nat then
    latest ← lift (accData !! (length accData - 1)%nat);
    let latestAccTs := timestamp_ms latest in
    let cutoffAccTs := Num.sub latestAccTs (Num.of_Z (WINDOW_SECONDS * 1000)) in
    let displayAccData :=
      List.filter (λ d, Num.geb (timestamp_ms d) cutoffAccTs) accData in
    mret (Some displayAccData)
  else mret None.

Definition pollPpg : M (option (list SensorDataPoint)) :=
  l ← getPpgData;
  ppgData ← array_read l;
  if (0 <? length ppgData)%nat then
    latest ← lift (ppgData !! (length ppgData - 1)%nat);
    let latestPpgTs := timestamp_ms latest in
    let cutoffPpgTs := Num.sub latestPpgTs (Num.of_Z (WINDOW_SECONDS * 1000)) in
    let displayPpgData :=
      List.filter (λ d, Num.geb (timestamp_ms d) cutoffPpgTs) ppgData in
    mret (Some displayPpgData)
  else mret None.

(** The function computed by the polls on the elements of a buffer. *)
Definition displayed (data : list SensorDataPoint) : option (list SensorDataPoint) :=
  match last data with
  | None => None
  | Some latest =>
      Some (List.filter
              (λ d, Num.geb (timestamp_ms d)
                      (Num.sub (timestamp_ms latest) (Num.of_Z (WINDOW_SECONDS * 1000))))
              data)
  end.

(** ** Vocabulary of the further properties *)

(** A header row of the log starts with a label. *)
Definition is_header (row : list cell) : bool :=
  match row with
  | CStr _ :: _ => true
  | _ => false
  end.

(** An entry as the handler makes them for the sensor type [t], in a
    world: it carries that type and a 24-bit value, and its row is in the
    log. *)
Definition entry_of (t : Z) (w : World) (p : SensorDataPoint) : Prop :=
  type p = t ∧ 0 ≤ value p ≤ 2 ^ 24 - 1 ∧
  [CNum (timestamp_ms p); CNum (Num.of_Z (value p))] ∈ csvRows (this w).

(** [kept] is [arr] without a prefix of entries that are all older than the
    cutoff (the latest timestamp minus 60000 ms): the latest entry stays,
    and the first kept entry is at or after the cutoff. *)
Definition pruned (arr kept : list SensorDataPoint) : Prop :=
  ∃ dropped : list SensorDataPoint,
    arr = dropped ++ kept ∧
    last kept = last arr ∧
    ∀ latest : SensorDataPoint,
      last arr = Some latest →
      Forall (λ d, Num.lt (timestamp_ms d)
                     (Num.sub (timestamp_ms latest) BUFFER_DURATION_MS)) dropped ∧
      ∀ first : SensorDataPoint,
        head kept = Some first →
        Num.le (Num.sub (timestamp_ms latest) BUFFER_DURATION_MS) (timestamp_ms first).

(** The packets of type [t] of a session that are not dropped carry at
    most 5 samples each, and their counters increase strictly, starting
    above [prev]. *)
Fixpoint in_sequence (t prev : Z) (es : list event) : Prop :=
  match es with
  | [] => True
  | Notification _ dataView :: rest =>
      if valid_packet dataView && (packetType_of dataView =? t)
      then sampleCount_of dataView ≤ 5 ∧ prev < packetCounter_of dataView ∧
           in_sequence t (packetCounter_of dataView) rest
      else in_sequence t prev rest
  | _ :: rest => in_sequence t prev rest
  end.

(** Any two entries are at most 60000 ms apart. *)
Definition within_window (arr : list SensorDataPoint) : Prop :=
  ∀ a b : SensorDataPoint,
    a ∈ arr → b ∈ arr →
    Num.le (Num.sub (timestamp_ms a) (timestamp_ms b)) BUFFER_DURATION_MS.

(** The invariant behind the order of a buffer: the buffer [data w] of type
    [t] is in order and within the window, it is empty as long as the type
    has no genesis, the genesis is not 0, and no timestamp exceeds what a
    packet with counter [prev] and 5 samples gives. *)
Definition in_order (t : Z) (period : Num.t) (data : World → list SensorDataPoint)
    (prev : Z) (w : World) : Prop :=
  ascending (data w) ∧ within_window (data w) ∧
  match genesisTS (this w) !! t with
  | None => data w = []
  | Some g =>
      g ≠ 0 ∧
      ∀ p, p ∈ data w →
           Num.halves (timestamp_ms p) ≤ 2 * g + (prev * 5 + 4) * Num.halves period
  end.

(** [chart] is what is left of [data] when entries are removed from the
    front only, it ends with the same entry, and any two of its timestamps
    are at most [WINDOW_SECONDS] apart. *)
Definition recent_suffix (data chart : list SensorDataPoint) : Prop :=
  (∃ k : nat, chart = drop k data) ∧
  last chart = last data ∧
  ∀ a b : SensorDataPoint,
    a ∈ chart → b ∈ chart →
    Num.le (Num.sub (timestamp_ms a) (timestamp_ms b)) (Num.of_Z (WINDOW_SECONDS * 1000)).

(** The timestamp of [p] is the genesis of type [t] plus a whole,
    non-negative number of sample periods. *)
Definition on_grid (g : gmap Z Z) (t : Z) (period : Num.t) (p : SensorDataPoint) : Prop :=
  ∃ genesis m : Z,
    g !! t = Some genesis ∧ 0 ≤ m ∧
    timestamp_ms p = Num.add (Num.of_Z genesis) (Num.scale m period).

(** The invariant behind it: the genesis of [t] is not 0 and every entry of
    the buffer [data w] is on the grid. *)
Definition gridded (t : Z) (period : Num.t) (data : World → list SensorDataPoint)
    (w : World) : Prop :=
  (∀ g : Z, genesisTS (this w) !! t = Some g → g ≠ 0) ∧
  Forall (on_grid (genesisTS (this w)) t period) (data w).

(** * Lemmas *)

Ltac run_method :=
  unfold mbind, M_bind, mret, M_ret, field, assign, array_read, array_new, lift, throw;
  simpl.

(** ** Running methods *)

Lemma bind_run {A B : Type} (m : M A) (f : A → M B) (w w1 : World) (a : A) :
  m w = Some (a, w1) → (m ≫= f) w = f a w1.
Proof. intros H. unfold mbind, M_bind. now rewrite H. Qed.

Lemma bind_inv {A B : Type} (m : M A) (f : A → M B) (w w' : World) (b : B) :
  (m ≫= f) w = Some (b, w') →
  ∃ a w1, m w = Some (a, w1) ∧ f a w1 = Some (b, w').
Proof.
  unfold mbind, M_bind. destruct (m w) as [[a w1]|]; [|discriminate].
  intros H. now exists a, w1.
Qed.

Ltac step := erewrite bind_run by (reflexivity || eassumption); cbv beta.

(** ** [findIndex] and [slice] *)

Lemma findIndex_from_list_find {A : Type} (p : A → bool) (arr : list A) (i : Z) :
  findIndex_from p arr i =
  match list_find (λ d, p d = true) arr with
  | Some (k, _) => i + Z.of_nat k
  | None => -1
  end.
Proof.
  revert i. induction arr as [|d rest IH]; intros i; simpl; [reflexivity|].
  case_decide as Hd.
  - rewrite Hd. lia.
  - apply not_true_is_false in Hd. rewrite Hd, IH.
    destruct (list_find _ rest) as [[k e]|]; simpl; lia.
Qed.

Lemma findIndex_Some {A : Type} (p : A → bool) (arr : list A) (k : nat) (d : A) :
  arr !! k = Some d → p d = true →
  ∃ (j : nat) (e : A),
    findIndex p arr = Z.of_nat j ∧ (j ≤ k)%nat ∧ arr !! j = Some e ∧ p e = true ∧
    ∀ (i : nat) (x : A), arr !! i = Some x → (i < j)%nat → p x = false.
Proof.
  intros Hk Hd. unfold findIndex. rewrite findIndex_from_list_find.
  destruct (list_find (λ d, p d = true) arr) as [[j e]|] eqn:Hf.
  - apply list_find_Some in Hf as (Hj & He & Hlt).
    exists j, e. split; [lia|]. split; [|split; [assumption|split; [assumption|]]].
    + destruct (decide (j ≤ k)%nat) as [|Hn]; [assumption|].
      exfalso. apply (Hlt k d Hk); [lia | assumption].
    + intros i x Hi Hij. apply not_true_is_false. now apply (Hlt i x).
  - exfalso. rewrite list_find_None in Hf.
    rewrite Forall_forall in Hf. apply (Hf d); [|assumption].
    apply list_elem_of_lookup. now exists k.
Qed.

Lemma slice_drop {A : Type} (arr : list A) (k : nat) :
  (k ≤ length arr)%nat → slice (Z.of_nat k) arr = drop k arr.
Proof.
  intros Hk. unfold slice.
  destruct (Z.of_nat k <? 0) eqn:Hneg; [lia|].
  f_equal. lia.
Qed.

Lemma slice_shorter {A : Type} (arr : list A) (k : Z) :
  0 < k → arr ≠ [] → slice k arr ≠ arr.
Proof.
  intros Hk Harr Heq. apply (f_equal length) in Heq.
  unfold slice in Heq. rewrite length_drop in Heq.
  destruct (k <? 0) eqn:Hneg; [lia|].
  destruct arr; [congruence|]. simpl in Heq. lia.
Qed.

(** ** Trimming as a function *)

Lemma in_window_latest (latest : SensorDataPoint) : in_window latest latest = true.
Proof. unfold in_window, Num.geb, Num.sub, BUFFER_DURATION_MS, Num.of_Z. simpl. lia. Qed.

Lemma trimmed_drop (arr : list SensorDataPoint) (latest : SensorDataPoint) :
  last arr = Some latest →
  ∃ (j : nat) (e : SensorDataPoint),
    firstValid arr latest = Z.of_nat j ∧ (j < length arr)%nat ∧
    trimmed arr = drop j arr ∧ arr !! j = Some e ∧ in_window latest e = true ∧
    ∀ (i : nat) (x : SensorDataPoint),
      arr !! i = Some x → (i < j)%nat → in_window latest x = false.
Proof.
  intros Hlast. pose proof Hlast as Hl. rewrite last_lookup in Hl.
  destruct (findIndex_Some (in_window latest) arr _ latest Hl (in_window_latest latest))
    as (j & e & Hj & Hle & He & Hpe & Hbefore).
  exists j, e. apply lookup_lt_Some in Hl.
  split; [exact Hj|]. split; [lia|]. split; [|auto].
  unfold trimmed. rewrite Hlast. unfold firstValid in *. fold (in_window latest).
  rewrite Hj. destruct (0 <? Z.of_nat j) eqn:Hpos.
  - apply slice_drop. lia.
  - assert (j = 0%nat) as -> by lia. reflexivity.
Qed.

Lemma last_drop_lt {A : Type} (arr : list A) (j : nat) :
  (j < length arr)%nat → last (drop j arr) = last arr.
Proof.
  intros Hj. rewrite !last_lookup, lookup_drop, length_drop. f_equal. lia.
Qed.

Lemma trimmed_idem (arr : list SensorDataPoint) : trimmed (trimmed arr) = trimmed arr.
Proof.
  destruct (last arr) as [latest|] eqn:Hlast.
  - destruct (trimmed_drop arr latest Hlast) as (j & e & _ & Hj & Ht & He & Hpe & _).
    rewrite Ht.
    assert (firstValid (drop j arr) latest = 0) as Hz.
    { unfold firstValid, findIndex. rewrite (drop_S _ _ _ He). simpl.
      fold (in_window latest e). now rewrite Hpe. }
    unfold trimmed. now rewrite (last_drop_lt _ _ Hj), Hlast, Hz.
  - unfold trimmed. rewrite Hlast. unfold trimmed. now rewrite Hlast.
Qed.

(** Under ascending timestamps the trim keeps exactly the entries of the
    window ending at the latest timestamp. *)
Lemma trimmed_window (arr : list SensorDataPoint) (latest : SensorDataPoint) :
  last arr = Some latest → ascending arr →
  ∃ dropped : list SensorDataPoint,
    arr = dropped ++ trimmed arr ∧
    Forall (λ d, Num.lt (timestamp_ms d)
                   (Num.sub (timestamp_ms latest) BUFFER_DURATION_MS)) dropped ∧
    Forall (λ d, Num.le (Num.sub (timestamp_ms latest) BUFFER_DURATION_MS)
                   (timestamp_ms d) ∧
                 Num.le (timestamp_ms d) (timestamp_ms latest)) (trimmed arr).
Proof.
  intros Hlast Hasc.
  destruct (trimmed_drop arr latest Hlast) as (j & e & _ & Hj & Ht & He & Hpe & Hbefore).
  exists (take j arr). rewrite Ht. split; [now rewrite take_drop|]. split.
  - apply Forall_lookup. intros i x Hx.
    apply lookup_take_Some in Hx as [Hx Hi].
    specialize (Hbefore i x Hx Hi). unfold in_window, Num.geb in Hbefore.
    unfold Num.lt. lia.
  - apply Forall_lookup. intros i x Hx. rewrite lookup_drop in Hx.
    split.
    + pose proof (Hasc j (j + i)%nat e x ltac:(lia) He Hx) as Hle.
      unfold in_window, Num.geb in Hpe. unfold Num.le in *. lia.
    + rewrite last_lookup in Hlast.
      apply (Hasc (j + i)%nat (Init.Nat.pred (length arr)) x latest); try assumption.
      apply lookup_lt_Some in Hx. lia.
Qed.

(** Short arrays are not trimmed: when the first entry is inside the
    window of the last one, the trim keeps everything. *)
Lemma trimmed_all (d : SensorDataPoint) (rest : list SensorDataPoint)
    (latest : SensorDataPoint) :
  last (d :: rest) = Some latest → in_window latest d = true →
  trimmed (d :: rest) = d :: rest.
Proof.
  intros Hlast Hd. unfold trimmed. rewrite Hlast.
  unfold firstValid, findIndex. simpl. fold (in_window latest d). now rewrite Hd.
Qed.

Lemma trimmed_respects_window (arr : list SensorDataPoint) :
  ascending arr → window arr (trimmed arr).
Proof.
  intros Hasc. destruct (last arr) as [latest|] eqn:Hlast.
  - destruct (trimmed_window arr latest Hlast Hasc) as (dropped & Harr & Hold & Hnew).
    exists dropped. split; [exact Harr|]. split.
    + intros latest' Heq. assert (latest' = latest) as -> by congruence.
      split; [exact Hold|].
      eapply Forall_impl; [exact Hnew|]. now intros d [? _].
    + rewrite Forall_forall in Hnew. intros a b Ha Hb.
      destruct (Hnew a Ha) as [_ Hamax]. destruct (Hnew b Hb) as [Hbmin _].
      unfold Num.le, Num.sub in *. simpl in *. lia.
  - apply last_None in Hlast. subst arr. exists []. split; [reflexivity|]. split.
    + intros latest [=].
    + intros a b Ha. inversion Ha.
Qed.

(** ** The trim methods *)

Lemma contents_lookup (w : World) (l : loc) :
  (l < length (arrays w))%nat → arrays w !! l = Some (contents w l).
Proof.
  intros Hl. unfold contents.
  destruct (lookup_lt_is_Some_2 _ _ Hl) as [a Ha]. now rewrite Ha.
Qed.

Lemma trimAccBuffer_run (w : World) :
  (accDataPoints (this w) < length (arrays w))%nat →
  ∃ w', trimAccBuffer w = Some (tt, w') ∧
        (w' = w ∧ trimmed (accData w) = accData w ∨
         w' = rebound_acc w (trimmed (accData w)) ∧ trimmed (accData w) ≠ accData w).
Proof.
  intros Hl. apply contents_lookup in Hl. fold (accData w) in Hl.
  unfold trimAccBuffer. run_method. rewrite Hl.
  destruct (accData w) as [|d arr] eqn:HA using rev_ind.
  - simpl. exists w. split; [reflexivity|]. now left.
  - clear IHarr. rewrite length_app. simpl.
    replace (length arr + 1 =? 0)%nat with false by (symmetry; apply Nat.eqb_neq; lia).
    replace (length arr + 1 - 1)%nat with (length arr) by lia.
    rewrite list_lookup_middle by reflexivity. run_method.
    unfold trimmed. rewrite last_snoc. unfold firstValid.
    destruct (0 <? _) eqn:Hpos.
    + eexists. split; [reflexivity|]. right. split; [reflexivity|].
      apply slice_shorter; [lia|]. now destruct arr.
    + exists w. split; [reflexivity|]. now left.
Qed.

Lemma trimPpgBuffer_run (w : World) :
  (ppgDataPoints (this w) < length (arrays w))%nat →
  ∃ w', trimPpgBuffer w = Some (tt, w') ∧
        (w' = w ∧ trimmed (ppgData w) = ppgData w ∨
         w' = rebound_ppg w (trimmed (ppgData w)) ∧ trimmed (ppgData w) ≠ ppgData w).
Proof.
  intros Hl. apply contents_lookup in Hl. fold (ppgData w) in Hl.
  unfold trimPpgBuffer. run_method. rewrite Hl.
  destruct (ppgData w) as [|d arr] eqn:HA using rev_ind.
  - simpl. exists w. split; [reflexivity|]. now left.
  - clear IHarr. rewrite length_app. simpl.
    replace (length arr + 1 =? 0)%nat with false by (symmetry; apply Nat.eqb_neq; lia).
    replace (length arr + 1 - 1)%nat with (length arr) by lia.
    rewrite list_lookup_middle by reflexivity. run_method.
    unfold trimmed. rewrite last_snoc. unfold firstValid.
    destruct (0 <? _) eqn:Hpos.
    + eexists. split; [reflexivity|]. right. split; [reflexivity|].
      apply slice_shorter; [lia|]. now destruct arr.
    + exists w. split; [reflexivity|]. now left.
Qed.

Lemma this_eta (c : BLEDataCollector) :
  c = set_ppgDataPoints (ppgDataPoints c) (set_accDataPoints (accDataPoints c) c).
Proof. now destruct c. Qed.

Lemma contents_app_l (arrs : list (list SensorDataPoint)) (c c' : BLEDataCollector)
    (extra : list (list SensorDataPoint)) (l : loc) :
  (l < length arrs)%nat →
  contents {| arrays := arrs ++ extra; this := c |} l =
  contents {| arrays := arrs; this := c' |} l.
Proof. intros Hl. unfold contents. simpl. now rewrite lookup_app_l. Qed.

Lemma contents_new (arrs : list (list SensorDataPoint)) (c : BLEDataCollector)
    (a : list SensorDataPoint) :
  contents {| arrays := arrs ++ [a]; this := c |} (length arrs) = a.
Proof. unfold contents. simpl. now rewrite list_lookup_middle. Qed.

Lemma trims_run (w : World) :
  allocated w →
  ∃ w1 w', trimAccBuffer w = Some (tt, w1) ∧ trimPpgBuffer w1 = Some (tt, w') ∧
           trims w w'.
Proof.
  intros [Ha Hp Hne].
  destruct (trimAccBuffer_run w Ha) as (w1 & Hrun1 & Hcase1).
  assert (ppgDataPoints (this w1) < length (arrays w1))%nat as Hp1.
  { destruct Hcase1 as [[-> _] | [-> _]]; simpl; rewrite ?length_app; simpl; lia. }
  destruct (trimPpgBuffer_run w1 Hp1) as (w2 & Hrun2 & Hcase2).
  exists w1, w2. split; [exact Hrun1|]. split; [exact Hrun2|].
  destruct w as [arrs c].
  destruct Hcase1 as [[-> Hs1] | [-> Hn1]], Hcase2 as [[-> Hs2] | [-> Hn2]];
    unfold rebound_acc, rebound_ppg, accData, ppgData in *; simpl in *.
  - split; simpl; try tauto; try done. apply this_eta.
  - split; simpl; rewrite ?length_app; simpl; try tauto; try done; try lia;
      try (now destruct c).
    + intros l Hl. now rewrite lookup_app_l.
    + unfold accData. simpl. rewrite Hs1. now apply contents_app_l.
    + unfold ppgData. simpl. apply contents_new.
    + split; simpl; rewrite ?length_app; simpl; lia.
  - rewrite contents_app_l with (c' := c) in * by assumption.
    split; simpl; rewrite ?length_app; simpl; try tauto; try done; try lia;
      try (now destruct c).
    + intros l Hl. now rewrite lookup_app_l.
    + unfold accData. simpl. apply contents_new.
    + unfold ppgData. simpl. rewrite Hs2. now apply contents_app_l.
    + split; simpl; rewrite ?length_app; simpl; lia.
  - rewrite contents_app_l with (c' := c) in * by assumption.
    split; simpl; rewrite ?length_app; simpl; try tauto; try done; try lia;
      try (now destruct c).
    + intros l Hl. rewrite lookup_app_l by (rewrite length_app; simpl; lia).
      now rewrite lookup_app_l.
    + unfold accData. simpl.
      rewrite (contents_app_l (arrs ++ _) _ c) by (rewrite length_app; simpl; lia).
      apply contents_new.
    + unfold ppgData, contents. simpl.
      now rewrite list_lookup_middle by (now rewrite length_app).
    + split; simpl; rewrite ?length_app; simpl; lia.
Qed.

(** ** Bytes and the bit operators *)

Lemma u8_range (b : byte) : 0 ≤ u8 b < 256.
Proof. unfold u8. pose proof (Byte.to_N_bounded b). lia. Qed.

Lemma byte_at_range (dataView : list byte) (k : Z) : 0 ≤ byte_at dataView k < 256.
Proof. apply u8_range. Qed.

Lemma getUint8_byte_at (dataView : list byte) (k : Z) :
  0 ≤ k < Z.of_nat (length dataView) → getUint8 dataView k = Some (byte_at dataView k).
Proof.
  intros Hk. unfold getUint8, byte_at.
  destruct (k <? 0) eqn:Hneg; [lia|].
  destruct (lookup_lt_is_Some_2 dataView (Z.to_nat k) ltac:(lia)) as [b Hb].
  rewrite Hb. simpl. now rewrite (nth_lookup_Some _ _ x00 _ Hb).
Qed.

Lemma getUint16_byte_at (dataView : list byte) :
  3 ≤ Z.of_nat (length dataView) →
  getUint16 dataView 1 = Some (packetCounter_of dataView).
Proof.
  intros Hlen. unfold getUint16.
  rewrite !getUint8_byte_at by lia. reflexivity.
Qed.

Lemma ToInt32_small (z : Z) : 0 ≤ z < 2 ^ 31 → ToInt32 z = z.
Proof.
  intros Hz. unfold ToInt32. rewrite Z.mod_small by lia.
  destruct (z <? 2 ^ 31) eqn:H; lia.
Qed.

Lemma lor_shiftl_add (a b n : Z) :
  0 ≤ n → 0 ≤ a < 2 ^ n → Z.lor a (Z.shiftl b n) = a + b * 2 ^ n.
Proof.
  intros Hn Ha. rewrite Z.shiftl_mul_pow2 by assumption.
  rewrite <- Z.lxor_lor, <- Z.add_nocarry_lxor; try reflexivity.
  all: apply Z.bits_inj'; intros i Hi; rewrite Z.land_spec, Z.bits_0.
  all: destruct (Z.lt_ge_cases i n) as [Hlt | Hge].
  all: try (rewrite (Z.mul_pow2_bits_low b n i) by lia; apply andb_false_r).
  all: rewrite <- (Z.mod_small a (2 ^ n)) by lia.
  all: rewrite (Z.mod_pow2_bits_high a n i) by lia; reflexivity.
Qed.

(** The handler's expression [b0 | (b1 << 8) | (b2 << 16)] on three bytes. *)
Lemma decode_bytes (b0 b1 b2 : Z) :
  0 ≤ b0 < 256 → 0 ≤ b1 < 256 → 0 ≤ b2 < 256 →
  js_or (js_or b0 (js_shl b1 8)) (js_shl b2 16) = b0 + b1 * 2 ^ 8 + b2 * 2 ^ 16.
Proof.
  intros H0 H1 H2.
  assert (∀ b n, 0 ≤ b < 256 → 0 ≤ n ≤ 16 → js_shl b n = Z.shiftl b n) as Hshl.
  { intros b n Hb Hn. unfold js_shl.
    rewrite (Z.mod_small n 32), (ToInt32_small b) by lia.
    apply ToInt32_small. rewrite Z.shiftl_mul_pow2 by lia.
    assert (0 < 2 ^ n ≤ 2 ^ 16) by (split; [|apply Z.pow_le_mono_r]; lia). nia. }
  assert (∀ a b n, 0 ≤ a < 2 ^ n → 0 ≤ b < 256 → 0 ≤ n ≤ 16 →
                   js_or a (Z.shiftl b n) = a + b * 2 ^ n) as Hor.
  { intros a b n Ha Hb Hn. unfold js_or.
    assert (0 < 2 ^ n ≤ 2 ^ 16) by (split; [|apply Z.pow_le_mono_r]; lia).
    pose proof (Z.shiftl_mul_pow2 b n ltac:(lia)) as Hmul.
    rewrite (ToInt32_small a), (ToInt32_small (Z.shiftl b n)) by (rewrite ?Hmul; nia).
    rewrite lor_shiftl_add by lia. apply ToInt32_small. nia. }
  rewrite !Hshl by lia. rewrite (Hor b0 b1 8) by lia. apply Hor; lia.
Qed.

Lemma byte_at_lookup (dataView : list byte) (k : nat) (b : byte) :
  dataView !! k = Some b → byte_at dataView (Z.of_nat k) = u8 b.
Proof.
  intros Hb. unfold byte_at. rewrite Nat2Z.id. now rewrite (nth_lookup_Some _ _ x00 _ Hb).
Qed.

Lemma lor_bytes (b0 b1 b2 : Z) :
  0 ≤ b0 < 256 → 0 ≤ b1 < 256 → 0 ≤ b2 < 256 →
  Z.lor (Z.lor b0 (Z.shiftl b1 8)) (Z.shiftl b2 16) = b0 + b1 * 2 ^ 8 + b2 * 2 ^ 16.
Proof.
  intros H0 H1 H2. rewrite (lor_shiftl_add b0 b1 8) by lia.
  apply lor_shiftl_add; lia.
Qed.

Lemma sample_at_lookup (dataView : list byte) (i : nat) (low mid high : byte) :
  dataView !! (3 + 3 * i)%nat = Some low →
  dataView !! (3 + 3 * i + 1)%nat = Some mid →
  dataView !! (3 + 3 * i + 2)%nat = Some high →
  sample_at dataView (Z.of_nat i) =
  Z.lor (Z.lor (u8 low) (Z.shiftl (u8 mid) 8)) (Z.shiftl (u8 high) 16).
Proof.
  intros Hl Hm Hh. rewrite lor_bytes by apply u8_range. unfold sample_at.
  replace (3 + Z.of_nat i * 3) with (Z.of_nat (3 + 3 * i)) by lia.
  replace (Z.of_nat (3 + 3 * i) + 1) with (Z.of_nat (3 + 3 * i + 1)) by lia.
  replace (Z.of_nat (3 + 3 * i) + 2) with (Z.of_nat (3 + 3 * i + 2)) by lia.
  now rewrite (byte_at_lookup _ _ _ Hl), (byte_at_lookup _ _ _ Hm), (byte_at_lookup _ _ _ Hh).
Qed.

(** A packet that holds a whole group of index [i] is not dropped. *)
Lemma group_valid (dataView : list byte) (i : nat) (high : byte) :
  dataView !! (3 + 3 * i + 2)%nat = Some high →
  valid_packet dataView = true ∧ Z.of_nat i < sampleCount_of dataView.
Proof.
  intros Hh. apply lookup_lt_Some in Hh. unfold valid_packet, sampleCount_of.
  assert (Z.of_nat i + 1 ≤ (Z.of_nat (length dataView) - 3) / 3) as Hdiv.
  { apply Z.div_le_lower_bound; lia. }
  split; [apply andb_true_iff|]; lia.
Qed.

Lemma packetCounter_range (dataView : list byte) :
  0 ≤ packetCounter_of dataView < 2 ^ 16.
Proof.
  unfold packetCounter_of.
  pose proof (byte_at_range dataView 1). pose proof (byte_at_range dataView 2). lia.
Qed.

(** ** The sample loop *)

Lemma pushed_nil (l : loc) (w : World) : pushed l [] w = w.
Proof.
  destruct w as [arrs c]. unfold pushed, contents. simpl.
  rewrite !app_nil_r. f_equal.
  - destruct (arrs !! l) as [a|] eqn:Ha; simpl.
    + now apply list_insert_id.
    + apply list_insert_ge. now apply lookup_ge_None.
  - now destruct c.
Qed.

Lemma pushed_pushed (l : loc) (ps qs : list SensorDataPoint) (w : World) :
  (l < length (arrays w))%nat →
  pushed l qs (pushed l ps w) = pushed l (ps ++ qs) w.
Proof.
  intros Hl. unfold pushed, contents. simpl.
  rewrite list_lookup_insert_eq by assumption. simpl.
  rewrite list_insert_insert_eq, fmap_app, !app_assoc. reflexivity.
Qed.

Lemma sample_body_acc (dataView : list byte) (i : Z) (w : World) :
  (accDataPoints (this w) < length (arrays w))%nat →
  0 ≤ i → 3 + i * 3 + 2 < Z.of_nat (length dataView) →
  sample_body dataView PACKET_TYPE_ACC (packetCounter_of dataView) i w =
  Some (tt, pushed (accDataPoints (this w))
              [decoded_point (nullish (genesisTS (this w) !! PACKET_TYPE_ACC) 0)
                 ACC_SAMPLE_PERIOD_MS PACKET_TYPE_ACC dataView i] w).
Proof.
  intros Hl Hi Hlen. unfold sample_body.
  rewrite !getUint8_byte_at by lia.
  unfold csv_push, array_push, array_write. run_method.
  rewrite !decode_bytes by apply byte_at_range.
  rewrite (contents_lookup w _ Hl). simpl.
  rewrite (contents_lookup w _ Hl). reflexivity.
Qed.

Lemma sample_body_ppg (dataView : list byte) (i : Z) (w : World) :
  (ppgDataPoints (this w) < length (arrays w))%nat →
  0 ≤ i → 3 + i * 3 + 2 < Z.of_nat (length dataView) →
  sample_body dataView PACKET_TYPE_PPG (packetCounter_of dataView) i w =
  Some (tt, pushed (ppgDataPoints (this w))
              [decoded_point (nullish (genesisTS (this w) !! PACKET_TYPE_PPG) 0)
                 PPG_SAMPLE_PERIOD_MS PACKET_TYPE_PPG dataView i] w).
Proof.
  intros Hl Hi Hlen. unfold sample_body.
  rewrite !getUint8_byte_at by lia.
  unfold csv_push, array_push, array_write. run_method.
  rewrite !decode_bytes by apply byte_at_range.
  rewrite (contents_lookup w _ Hl). simpl.
  rewrite (contents_lookup w _ Hl). reflexivity.
Qed.

Lemma sample_body_other (dataView : list byte) (packetType packetCounter i : Z)
    (w : World) :
  packetType ≠ PACKET_TYPE_ACC → packetType ≠ PACKET_TYPE_PPG →
  0 ≤ i → 3 + i * 3 + 2 < Z.of_nat (length dataView) →
  sample_body dataView packetType packetCounter i w = Some (tt, w).
Proof.
  intros Hacc Hppg Hi Hlen. unfold sample_body.
  rewrite !getUint8_byte_at by lia.
  apply Z.eqb_neq in Hacc, Hppg. rewrite Hacc, Hppg. reflexivity.
Qed.

Lemma decoded_points_cons (genesis : Z) (period : Num.t) (packetType : Z)
    (dataView : list byte) (i : Z) (n : nat) :
  decoded_points genesis period packetType dataView i (Z.of_nat (S n)) =
  decoded_point genesis period packetType dataView i ::
  decoded_points genesis period packetType dataView (i + 1) (Z.of_nat n).
Proof.
  unfold decoded_points. rewrite seqZ_cons by lia. rewrite fmap_cons.
  f_equal. f_equal. f_equal; lia.
Qed.

Lemma sample_loop_acc (dataView : list byte) (n : nat) (i : Z) (w : World) :
  (accDataPoints (this w) < length (arrays w))%nat →
  0 ≤ i → 3 + (i + Z.of_nat n) * 3 ≤ Z.of_nat (length dataView) →
  sample_loop dataView PACKET_TYPE_ACC (packetCounter_of dataView) i n w =
  Some (tt, pushed (accDataPoints (this w))
              (decoded_points (nullish (genesisTS (this w) !! PACKET_TYPE_ACC) 0)
                 ACC_SAMPLE_PERIOD_MS PACKET_TYPE_ACC dataView i (Z.of_nat n)) w).
Proof.
  revert i w. induction n as [|n IH]; intros i w Hl Hi Hlen.
  - simpl. now rewrite pushed_nil.
  - cbn [sample_loop]. erewrite bind_run by (apply sample_body_acc; lia).
    rewrite IH; simpl; rewrite ?length_insert; try lia.
    rewrite pushed_pushed by assumption.
    now rewrite decoded_points_cons.
Qed.

Lemma sample_loop_ppg (dataView : list byte) (n : nat) (i : Z) (w : World) :
  (ppgDataPoints (this w) < length (arrays w))%nat →
  0 ≤ i → 3 + (i + Z.of_nat n) * 3 ≤ Z.of_nat (length dataView) →
  sample_loop dataView PACKET_TYPE_PPG (packetCounter_of dataView) i n w =
  Some (tt, pushed (ppgDataPoints (this w))
              (decoded_points (nullish (genesisTS (this w) !! PACKET_TYPE_PPG) 0)
                 PPG_SAMPLE_PERIOD_MS PACKET_TYPE_PPG dataView i (Z.of_nat n)) w).
Proof.
  revert i w. induction n as [|n IH]; intros i w Hl Hi Hlen.
  - simpl. now rewrite pushed_nil.
  - cbn [sample_loop]. erewrite bind_run by (apply sample_body_ppg; lia).
    rewrite IH; simpl; rewrite ?length_insert; try lia.
    rewrite pushed_pushed by assumption.
    now rewrite decoded_points_cons.
Qed.

Lemma sample_loop_other (dataView : list byte) (packetType packetCounter : Z)
    (n : nat) (i : Z) (w : World) :
  packetType ≠ PACKET_TYPE_ACC → packetType ≠ PACKET_TYPE_PPG →
  0 ≤ i → 3 + (i + Z.of_nat n) * 3 ≤ Z.of_nat (length dataView) →
  sample_loop dataView packetType packetCounter i n w = Some (tt, w).
Proof.
  intros Hacc Hppg. revert i. induction n as [|n IH]; intros i Hi Hlen.
  - reflexivity.
  - cbn [sample_loop]. erewrite bind_run by (apply sample_body_other; lia).
    apply IH; lia.
Qed.

(** The iterations stay inside the view. *)
Lemma sampleCount_fits (dataView : list byte) :
  3 ≤ Z.of_nat (length dataView) →
  3 + (0 + Z.of_nat (Z.to_nat (sampleCount_of dataView))) * 3
  ≤ Z.of_nat (length dataView).
Proof.
  intros Hlen. unfold sampleCount_of.
  pose proof (Z.mul_div_le (Z.of_nat (length dataView) - 3) 3 ltac:(lia)).
  pose proof (Z.div_pos (Z.of_nat (length dataView) - 3) 3 ltac:(lia) ltac:(lia)).
  lia.
Qed.

(** ** One notification *)

Lemma valid_packet_length (dataView : list byte) :
  valid_packet dataView = true →
  3 ≤ Z.of_nat (length dataView) ∧ 0 < sampleCount_of dataView.
Proof. unfold valid_packet. intros H. apply andb_true_iff in H. lia. Qed.

Lemma contents_pushed_eq (l : loc) (ps : list SensorDataPoint) (w : World) :
  (l < length (arrays w))%nat → contents (pushed l ps w) l = contents w l ++ ps.
Proof.
  intros Hl. unfold contents at 1. unfold pushed. simpl.
  now rewrite list_lookup_insert_eq by assumption.
Qed.

Lemma contents_pushed_ne (l l' : loc) (ps : list SensorDataPoint) (w : World) :
  l ≠ l' → contents (pushed l ps w) l' = contents w l'.
Proof.
  intros Hl. unfold contents at 1. unfold pushed. simpl.
  now rewrite list_lookup_insert_ne by assumption.
Qed.

Lemma sample_loop_run (dataView : list byte) (w : World) :
  allocated w → valid_packet dataView = true →
  ∃ w',
    sample_loop dataView (packetType_of dataView) (packetCounter_of dataView) 0
      (Z.to_nat (sampleCount_of dataView)) w = Some (tt, w') ∧
    this w' =
      set_csvRows
        (csvRows (this w) ++
         (row_of <$>
            (new_points (genesisTS (this w)) dataView PACKET_TYPE_ACC
               ACC_SAMPLE_PERIOD_MS ++
             new_points (genesisTS (this w)) dataView PACKET_TYPE_PPG
               PPG_SAMPLE_PERIOD_MS)))
        (this w) ∧
    length (arrays w') = length (arrays w) ∧
    accData w' =
      accData w ++
      new_points (genesisTS (this w)) dataView PACKET_TYPE_ACC ACC_SAMPLE_PERIOD_MS ∧
    ppgData w' =
      ppgData w ++
      new_points (genesisTS (this w)) dataView PACKET_TYPE_PPG PPG_SAMPLE_PERIOD_MS ∧
    ∀ l : loc,
      l ≠ accDataPoints (this w) → l ≠ ppgDataPoints (this w) →
      arrays w' !! l = arrays w !! l.
Proof.
  intros [Ha Hp Hne] Hvalid.
  destruct (valid_packet_length _ Hvalid) as [Hlen Hcount].
  pose proof (sampleCount_fits dataView Hlen) as Hfits.
  unfold new_points.
  destruct (packetType_of dataView =? PACKET_TYPE_ACC) eqn:Hacc;
    [|destruct (packetType_of dataView =? PACKET_TYPE_PPG) eqn:Hppg].
  - apply Z.eqb_eq in Hacc. rewrite Hacc. simpl (_ =? _).
    rewrite sample_loop_acc by (assumption || lia).
    rewrite Z2Nat.id by lia.
    eexists. split; [reflexivity|]. unfold accData, ppgData.
    cbn [this pushed accDataPoints ppgDataPoints set_csvRows arrays].
    rewrite contents_pushed_eq, contents_pushed_ne, !app_nil_r, length_insert by assumption.
    repeat split. intros l Hl _. now apply list_lookup_insert_ne.
  - apply Z.eqb_eq in Hppg. rewrite Hppg. simpl (_ =? _).
    rewrite sample_loop_ppg by (assumption || lia).
    rewrite Z2Nat.id by lia.
    eexists. split; [reflexivity|]. unfold accData, ppgData.
    cbn [this pushed accDataPoints ppgDataPoints set_csvRows arrays].
    rewrite contents_pushed_eq, contents_pushed_ne, !app_nil_r, length_insert
      by (assumption || congruence).
    repeat split. intros l _ Hl. now apply list_lookup_insert_ne.
  - apply Z.eqb_neq in Hacc, Hppg.
    rewrite sample_loop_other by (assumption || lia).
    exists w. rewrite !app_nil_r. repeat split. now destruct (this w).
Qed.

Lemma with_genesis_frame (now packetType : Z) (w : World) :
  arrays (with_genesis now packetType w) = arrays w ∧
  accDataPoints (this (with_genesis now packetType w)) = accDataPoints (this w) ∧
  ppgDataPoints (this (with_genesis now packetType w)) = ppgDataPoints (this w) ∧
  gattConnected (this (with_genesis now packetType w)) = gattConnected (this w) ∧
  onDataCallback (this (with_genesis now packetType w)) = onDataCallback (this w).
Proof. unfold with_genesis. now destruct (falsy _). Qed.

Lemma handleNotification_dropped (now : Z) (dataView : list byte) (w : World) :
  valid_packet dataView = false → handleNotification now dataView w = Some (None, w).
Proof.
  unfold valid_packet, sampleCount_of, handleNotification. intros Hd.
  destruct (Z.of_nat (length dataView) <? 3) eqn:Hlen; [reflexivity|].
  rewrite getUint8_byte_at, getUint16_byte_at by lia. run_method.
  replace (_ <=? 0) with true; [reflexivity|].
  apply andb_false_iff in Hd. lia.
Qed.

Lemma genesis_step_run (now packetType : Z) (w : World) :
  (if falsy (genesisTS (this w) !! packetType) then
     assign (λ c, set_genesisTS (<[packetType := now]> (genesisTS c)) c);;
     (if packetType =? PACKET_TYPE_ACC
      then csv_push [CStr "timestamp_ms"; CStr "magnitude_ug"]
      else csv_push [CStr "timestamp_ms"; CStr "green"]);;
     assign (set_collectingType (Some packetType))
   else mret tt) w = Some (tt, with_genesis now packetType w).
Proof.
  unfold with_genesis, header_row. destruct (falsy _); [|reflexivity].
  now destruct (packetType =? PACKET_TYPE_ACC).
Qed.

Lemma handleNotification_valid (now : Z) (dataView : list byte) (w : World) :
  allocated w → valid_packet dataView = true →
  ∃ r w', handleNotification now dataView w = Some (r, w') ∧
          handled now dataView w r w'.
Proof.
  intros Hw Hvalid. destruct (valid_packet_length _ Hvalid) as [Hlen Hcount].
  set (w0 := with_genesis now (packetType_of dataView) w).
  destruct (with_genesis_frame now (packetType_of dataView) w)
    as (Harr & Hacc & Hppg & Hconn & Hcb).
  fold w0 in Harr, Hacc, Hppg, Hconn, Hcb.
  assert (allocated w0) as Hw0.
  { destruct Hw. split; rewrite ?Harr, ?Hacc, ?Hppg; assumption. }
  destruct (sample_loop_run dataView w0 Hw0 Hvalid)
    as (w1 & Hloop & Hthis1 & Hlen1 & Hacc1 & Hppg1 & Hoth1).
  assert (allocated w1) as Hw1.
  { destruct Hw0. split; rewrite ?Hlen1, Hthis1; simpl; assumption. }
  destruct (trims_run w1 Hw1) as (w2 & w3 & Htrim1 & Htrim2 & Htrims).
  pose proof (trims_this _ _ Htrims) as Hthis3.
  assert (onDataCallback (this w3) = onDataCallback (this w)) as Hcb3.
  { rewrite Hthis3, Hthis1. simpl. exact Hcb. }
  assert (genesisTS (this w3) = genesisTS (this w0)) as Hgen3.
  { rewrite Hthis3, Hthis1. reflexivity. }
  exists (if onDataCallback (this w) then Some (accDataPoints (this w3)) else None), w3.
  split.
  - unfold handleNotification. cbv zeta.
    replace (Z.of_nat (length dataView) <? 3) with false by lia. cbv iota.
    rewrite getUint8_byte_at, getUint16_byte_at by lia.
    fold (packetType_of dataView) (sampleCount_of dataView).
    do 2 step.
    replace (sampleCount_of dataView <=? 0) with false by lia. cbv iota.
    step.
    erewrite bind_run by apply genesis_step_run. fold w0.
    do 3 step.
    step. rewrite Hcb3. now destruct (onDataCallback (this w)).
  - destruct Htrims as [_ Hold Hacc3 Hppg3 Haref Hpref Hanew Hpnew Halloc _].
    assert (contents w3 (accDataPoints (this w)) = accData w1) as Hca.
    { unfold contents, accData. rewrite Hold, Hthis1; simpl; rewrite ?Hacc; [reflexivity|].
      rewrite Hlen1, Harr. apply Hw. }
    assert (contents w3 (ppgDataPoints (this w)) = ppgData w1) as Hcp.
    { unfold contents, ppgData. rewrite Hold, Hthis1; simpl; rewrite ?Hppg; [reflexivity|].
      rewrite Hlen1, Harr. apply Hw. }
    assert (accData w0 = accData w) as Ha0.
    { unfold accData, contents. now rewrite Harr, Hacc. }
    assert (ppgData w0 = ppgData w) as Hp0.
    { unfold ppgData, contents. now rewrite Harr, Hppg. }
    assert (accDataPoints (this w1) = accDataPoints (this w)) as Hl1.
    { rewrite Hthis1. simpl. exact Hacc. }
    assert (ppgDataPoints (this w1) = ppgDataPoints (this w)) as Hl2.
    { rewrite Hthis1. simpl. exact Hppg. }
    rewrite Ha0 in Hacc1. rewrite Hp0 in Hppg1.
    split; rewrite ?Hgen3, ?Hca, ?Hcp; try assumption; try reflexivity.
    + rewrite Hthis3, Hthis1. reflexivity.
    + now rewrite Hacc3, Hacc1.
    + now rewrite Hppg3, Hppg1.
    + intros Hs. rewrite <- Hl1. now apply Haref.
    + intros Hs. rewrite <- Hl2. now apply Hpref.
    + intros Hs. rewrite <- Harr, <- Hlen1. now apply Hanew.
    + intros Hs. rewrite <- Harr, <- Hlen1. now apply Hpnew.
    + intros l Hl Hla Hlp. rewrite Hold by (rewrite Hlen1, Harr; exact Hl).
      rewrite <- Harr. apply Hoth1; congruence.
    + rewrite Hthis3, Hthis1. simpl. exact Hconn.
    + rewrite Hthis3, Hthis1. reflexivity.
Qed.

(** ** The points of a packet *)

Lemma new_points_other (g : gmap Z Z) (dataView : list byte) (which : Z)
    (period : Num.t) :
  packetType_of dataView ≠ which → new_points g dataView which period = [].
Proof. intros H. unfold new_points. apply Z.eqb_neq in H. now rewrite H. Qed.

Lemma new_points_length (g : gmap Z Z) (dataView : list byte) (which : Z)
    (period : Num.t) :
  packetType_of dataView = which →
  length (new_points g dataView which period) = Z.to_nat (sampleCount_of dataView).
Proof.
  intros H. unfold new_points, decoded_points. apply Z.eqb_eq in H. rewrite H.
  now rewrite length_fmap, length_seqZ.
Qed.

Lemma new_points_lookup (g : gmap Z Z) (dataView : list byte) (which : Z)
    (period : Num.t) (i : nat) :
  packetType_of dataView = which →
  Z.of_nat i < sampleCount_of dataView →
  new_points g dataView which period !! i =
  Some (decoded_point (nullish (g !! which) 0) period which dataView (Z.of_nat i)).
Proof.
  intros H Hi. unfold new_points, decoded_points. apply Z.eqb_eq in H. rewrite H.
  rewrite list_lookup_fmap, lookup_seqZ_lt by lia. reflexivity.
Qed.

(** The sample of index [i] of an ACC packet, in the log and in the array
    that was the ACC buffer when the packet arrived. *)
Lemma handled_acc_sample (now : Z) (dataView : list byte) (w : World)
    (r : option loc) (w' : World) (i : nat) :
  handled now dataView w r w' →
  packetType_of dataView = PACKET_TYPE_ACC →
  Z.of_nat i < sampleCount_of dataView →
  let p := decoded_point (nullish (genesisTS (this w') !! PACKET_TYPE_ACC) 0)
             ACC_SAMPLE_PERIOD_MS PACKET_TYPE_ACC dataView (Z.of_nat i) in
  csvRows (this w') !!
    (length (csvRows (this w')) - Z.to_nat (sampleCount_of dataView) + i)%nat =
    Some (row_of p) ∧
  contents w' (accDataPoints (this w)) !! (length (accData w) + i)%nat = Some p.
Proof.
  intros Hfacts Htype Hi p.
  pose proof (new_points_lookup (genesisTS (this w')) dataView PACKET_TYPE_ACC
                ACC_SAMPLE_PERIOD_MS i Htype Hi) as Hp.
  pose proof (new_points_length (genesisTS (this w')) dataView PACKET_TYPE_ACC
                ACC_SAMPLE_PERIOD_MS Htype) as Hn.
  split.
  - rewrite (handled_rows _ _ _ _ _ Hfacts).
    rewrite (new_points_other _ _ PACKET_TYPE_PPG) by (rewrite Htype; discriminate).
    rewrite app_nil_r, length_app, length_fmap, Hn.
    rewrite lookup_app_r by lia. rewrite list_lookup_fmap.
    replace (_ - _)%nat with i by lia. now rewrite Hp.
  - rewrite (handled_acc_old _ _ _ _ _ Hfacts).
    rewrite lookup_app_r by lia. now replace (_ - _)%nat with i by lia.
Qed.

Lemma handled_ppg_sample (now : Z) (dataView : list byte) (w : World)
    (r : option loc) (w' : World) (i : nat) :
  handled now dataView w r w' →
  packetType_of dataView = PACKET_TYPE_PPG →
  Z.of_nat i < sampleCount_of dataView →
  let p := decoded_point (nullish (genesisTS (this w') !! PACKET_TYPE_PPG) 0)
             PPG_SAMPLE_PERIOD_MS PACKET_TYPE_PPG dataView (Z.of_nat i) in
  csvRows (this w') !!
    (length (csvRows (this w')) - Z.to_nat (sampleCount_of dataView) + i)%nat =
    Some (row_of p) ∧
  contents w' (ppgDataPoints (this w)) !! (length (ppgData w) + i)%nat = Some p.
Proof.
  intros Hfacts Htype Hi p.
  pose proof (new_points_lookup (genesisTS (this w')) dataView PACKET_TYPE_PPG
                PPG_SAMPLE_PERIOD_MS i Htype Hi) as Hp.
  pose proof (new_points_length (genesisTS (this w')) dataView PACKET_TYPE_PPG
                PPG_SAMPLE_PERIOD_MS Htype) as Hn.
  split.
  - rewrite (handled_rows _ _ _ _ _ Hfacts).
    rewrite (new_points_other _ _ PACKET_TYPE_ACC) by (rewrite Htype; discriminate).
    rewrite app_nil_l, length_app, length_fmap, Hn.
    rewrite lookup_app_r by lia. rewrite list_lookup_fmap.
    replace (_ - _)%nat with i by lia. now rewrite Hp.
  - rewrite (handled_ppg_old _ _ _ _ _ Hfacts).
    rewrite lookup_app_r by lia. now replace (_ - _)%nat with i by lia.
Qed.

(** ** The genesis step *)

Lemma with_genesis_lookup (now t : Z) (w : World) :
  genesisTS (this (with_genesis now t w)) !! t =
  Some (if falsy (genesisTS (this w) !! t) then now
        else nullish (genesisTS (this w) !! t) 0).
Proof.
  unfold with_genesis. destruct (falsy _) eqn:Hf; simpl.
  - apply lookup_insert_eq.
  - destruct (genesisTS (this w) !! t); [reflexivity | discriminate].
Qed.

Lemma with_genesis_lookup_ne (now t t' : Z) (w : World) :
  t ≠ t' →
  genesisTS (this (with_genesis now t w)) !! t' = genesisTS (this w) !! t'.
Proof.
  intros Hne. unfold with_genesis. destruct (falsy _); simpl; [|reflexivity].
  now apply lookup_insert_ne.
Qed.

Lemma with_genesis_rows (now t : Z) (w : World) :
  csvRows (this (with_genesis now t w)) =
  csvRows (this w) ++
  (if falsy (genesisTS (this w) !! t) then [header_row t] else []).
Proof.
  unfold with_genesis. destruct (falsy _); simpl; [reflexivity|].
  now rewrite app_nil_r.
Qed.

(** ** Invariant of the reachable worlds *)

Lemma settled_initial : settled initial.
Proof. split; [split; simpl; lia | reflexivity | reflexivity]. Qed.

Lemma handleNotification_settled (now : Z) (dataView : list byte) (w : World)
    (r : option loc) (w' : World) :
  settled w → handleNotification now dataView w = Some (r, w') → settled w'.
Proof.
  intros Hw Hrun. destruct (valid_packet dataView) eqn:Hvalid.
  - destruct (handleNotification_valid now dataView w (settled_allocated _ Hw) Hvalid)
      as (r' & w'' & Hrun' & Hfacts).
    rewrite Hrun in Hrun'. injection Hrun' as <- <-.
    split; [apply Hfacts | |].
    + rewrite (handled_acc _ _ _ _ _ Hfacts). apply trimmed_idem.
    + rewrite (handled_ppg _ _ _ _ _ Hfacts). apply trimmed_idem.
  - rewrite handleNotification_dropped in Hrun by assumption.
    now injection Hrun as <- <-.
Qed.

Lemma handleNotification_total (now : Z) (dataView : list byte) (w : World) :
  allocated w → ∃ r w', handleNotification now dataView w = Some (r, w').
Proof.
  intros Hw. destruct (valid_packet dataView) eqn:Hvalid.
  - destruct (handleNotification_valid now dataView w Hw Hvalid) as (r & w' & Hrun & _).
    now exists r, w'.
  - exists None, w. now apply handleNotification_dropped.
Qed.

Lemma settled_fields (arrs : list (list SensorDataPoint)) (c c' : BLEDataCollector) :
  accDataPoints c' = accDataPoints c → ppgDataPoints c' = ppgDataPoints c →
  settled {| arrays := arrs; this := c |} → settled {| arrays := arrs; this := c' |}.
Proof.
  intros Ha Hp [[H1 H2 H3] H4 H5]. unfold accData, ppgData, contents in *. simpl in *.
  split; [split|..]; unfold accData, ppgData, contents; simpl; rewrite ?Ha, ?Hp; assumption.
Qed.

Lemma stop_run (w : World) :
  ∃ w', stop w = Some (tt, w') ∧ arrays w' = arrays w ∧
        ∃ b, this w' = set_gattConnected b (this w).
Proof.
  unfold stop. run_method. destruct (gattConnected (this w)) eqn:Hc.
  - eexists. split; [reflexivity|]. split; [reflexivity|]. now exists false.
  - exists w. split; [reflexivity|]. split; [reflexivity|]. exists false.
    destruct (this w); simpl in *. now subst.
Qed.

Lemma perform_settled (e : event) (w w' : World) :
  settled w → perform e w = Some (tt, w') → settled w'.
Proof.
  intros Hw. destruct e as [now dataView | | |]; simpl.
  - intros Hrun. apply bind_inv in Hrun as (r & w1 & Hrun & Hret).
    injection Hret as <-. eapply handleNotification_settled; eassumption.
  - intros [= <-]. destruct w. eapply settled_fields; [..|exact Hw]; reflexivity.
  - intros [= <-]. destruct w. eapply settled_fields; [..|exact Hw]; reflexivity.
  - intros Hrun. destruct (stop_run w) as (w1 & Hrun1 & Harr & b & Hthis).
    rewrite Hrun in Hrun1. injection Hrun1 as <-.
    destruct w as [arrs c], w' as [arrs' c']. simpl in *. subst.
    eapply settled_fields; [..|exact Hw]; reflexivity.
Qed.

Lemma perform_total (e : event) (w : World) :
  allocated w → ∃ w', perform e w = Some (tt, w').
Proof.
  intros Hw. destruct e as [now dataView | | |]; simpl.
  - destruct (handleNotification_total now dataView w Hw) as (r & w' & Hrun).
    exists w'. now erewrite bind_run by exact Hrun.
  - now eexists.
  - now eexists.
  - destruct (stop_run w) as (w' & Hrun & _). now exists w'.
Qed.

Lemma perform_all_settled (es : list event) (w w' : World) :
  settled w → perform_all es w = Some (tt, w') → settled w'.
Proof.
  revert w. induction es as [|e rest IH]; intros w Hw; simpl.
  - now intros [= <-].
  - intros Hrun. apply bind_inv in Hrun as ([] & w1 & Hrun & Hrest).
    apply (IH w1); [|assumption]. eapply perform_settled; eassumption.
Qed.

Lemma perform_all_total (es : list event) (w : World) :
  settled w → ∃ w', perform_all es w = Some (tt, w').
Proof.
  revert w. induction es as [|e rest IH]; intros w Hw; simpl.
  - now exists w.
  - destruct (perform_total e w (settled_allocated _ Hw)) as (w1 & Hrun).
    destruct (IH w1 (perform_settled e w w1 Hw Hrun)) as (w' & Hrest).
    exists w'. now erewrite bind_run by exact Hrun.
Qed.

Lemma reachable_settled (w : World) : reachable w → settled w.
Proof. intros [es Hrun]. eapply perform_all_settled; [apply settled_initial | exact Hrun]. Qed.

Lemma reachable_initial : reachable initial.
Proof. now exists []. Qed.

Lemma trims_settled (w : World) :
  settled w → trimAccBuffer w = Some (tt, w) ∧ trimPpgBuffer w = Some (tt, w).
Proof.
  intros [[Ha Hp _] Hsa Hsp]. split.
  - destruct (trimAccBuffer_run w Ha) as (w' & Hrun & [[-> _] | [_ Hne]]);
      [exact Hrun | contradiction].
  - destruct (trimPpgBuffer_run w Hp) as (w' & Hrun & [[-> _] | [_ Hne]]);
      [exact Hrun | contradiction].
Qed.

Lemma with_genesis_settled (now t : Z) (w : World) :
  settled w → settled (with_genesis now t w).
Proof.
  intros Hw. unfold with_genesis. destruct (falsy _); [|exact Hw].
  destruct w as [arrs c]. eapply settled_fields; [..|exact Hw]; reflexivity.
Qed.

Lemma handleNotification_other (now : Z) (dataView : list byte) (w : World) :
  settled w → valid_packet dataView = true →
  packetType_of dataView ≠ PACKET_TYPE_ACC → packetType_of dataView ≠ PACKET_TYPE_PPG →
  handleNotification now dataView w =
  Some (if onDataCallback (this w) then Some (accDataPoints (this w)) else None,
        with_genesis now (packetType_of dataView) w).
Proof.
  intros Hw Hvalid Hacc Hppg. destruct (valid_packet_length _ Hvalid) as [Hlen Hcount].
  pose proof (sampleCount_fits dataView Hlen) as Hfits.
  set (w0 := with_genesis now (packetType_of dataView) w).
  destruct (trims_settled w0 (with_genesis_settled _ _ _ Hw)) as [Htrim1 Htrim2].
  destruct (with_genesis_frame now (packetType_of dataView) w) as (_ & Hla & _ & _ & Hcb).
  fold w0 in Hla, Hcb.
  unfold handleNotification. cbv zeta.
  replace (Z.of_nat (length dataView) <? 3) with false by lia. cbv iota.
  rewrite getUint8_byte_at, getUint16_byte_at by lia.
  fold (packetType_of dataView) (sampleCount_of dataView).
  do 2 step.
  replace (sampleCount_of dataView <=? 0) with false by lia. cbv iota.
  step.
  erewrite bind_run by apply genesis_step_run. fold w0.
  erewrite bind_run by (apply sample_loop_other; assumption || lia).
  do 3 step. rewrite Hcb.
  destruct (onDataCallback (this w)); [|reflexivity].
  step. now rewrite Hla.
Qed.

(** What one notification does to the genesis of type [t]. *)
Lemma handleNotification_genesis (now : Z) (dataView : list byte) (w : World)
    (r : option loc) (w' : World) (t : Z) :
  allocated w → handleNotification now dataView w = Some (r, w') →
  genesisTS (this w') !! t =
  if valid_packet dataView && (packetType_of dataView =? t) &&
     falsy (genesisTS (this w) !! t)
  then Some now
  else genesisTS (this w) !! t.
Proof.
  intros Hw Hrun. destruct (valid_packet dataView) eqn:Hvalid; simpl.
  - destruct (handleNotification_valid now dataView w Hw Hvalid) as (r0 & w0 & Hrun0 & Hfacts).
    rewrite Hrun in Hrun0. injection Hrun0 as <- <-.
    rewrite (handled_genesis _ _ _ _ _ Hfacts).
    destruct (packetType_of dataView =? t) eqn:Ht; simpl.
    + apply Z.eqb_eq in Ht. subst t. rewrite with_genesis_lookup.
      destruct (falsy _) eqn:Hf; [reflexivity|].
      destruct (genesisTS (this w) !! packetType_of dataView); [reflexivity|discriminate].
    + apply Z.eqb_neq in Ht. now apply with_genesis_lookup_ne.
  - rewrite handleNotification_dropped in Hrun by assumption.
    now injection Hrun as <- <-.
Qed.

Lemma perform_genesis (e : event) (w w' : World) (t : Z) :
  allocated w → perform e w = Some (tt, w') →
  genesisTS (this w') !! t =
  match e with
  | Notification now dataView =>
      if valid_packet dataView && (packetType_of dataView =? t) &&
         falsy (genesisTS (this w) !! t)
      then Some now
      else genesisTS (this w) !! t
  | _ => genesisTS (this w) !! t
  end.
Proof.
  intros Hw. destruct e as [now dataView | | |]; simpl.
  - intros Hrun. apply bind_inv in Hrun as (r & w1 & Hrun & Hret).
    injection Hret as <-. now apply (handleNotification_genesis now dataView w r).
  - now intros [= <-].
  - now intros [= <-].
  - intros Hrun. destruct (stop_run w) as (w1 & Hrun1 & _ & b & Hthis).
    rewrite Hrun in Hrun1. injection Hrun1 as <-. now rewrite Hthis.
Qed.

Lemma perform_all_genesis (es : list event) (w : World) (t : Z) :
  settled w →
  (∀ g : Z, genesisTS (this w) !! t = Some g → g ≠ 0) →
  Forall (λ now, now ≠ 0) (clocks es) →
  ∃ w', perform_all es w = Some (tt, w') ∧
        genesisTS (this w') !! t =
        match genesisTS (this w) !! t with
        | Some g => Some g
        | None => first_genesis t es
        end.
Proof.
  revert w. induction es as [|e rest IH]; intros w Hw Hnz Hclocks.
  - exists w. split; [reflexivity|]. simpl. now destruct (genesisTS (this w) !! t).
  - destruct (perform_total e w (settled_allocated _ Hw)) as (w1 & Hrun).
    pose proof (perform_settled e w w1 Hw Hrun) as Hw1.
    pose proof (perform_genesis e w w1 t (settled_allocated _ Hw) Hrun) as Hg1.
    assert (Forall (λ now, now ≠ 0) (clocks rest) ∧
            ∀ now dataView, e = Notification now dataView → now ≠ 0) as [Hrest Hnow].
    { destruct e; simpl in Hclocks; [|now split..].
      apply Forall_cons in Hclocks as [? ?]. split; [assumption|]. congruence. }
    destruct (IH w1 Hw1) as (w' & Hall & Hg'); [|exact Hrest|].
    { intros g. rewrite Hg1. destruct e as [now dataView | | |]; try apply Hnz.
      destruct (_ && _); [|apply Hnz]. intros [= <-]. now apply (Hnow now dataView). }
    exists w'. split.
    { simpl. now erewrite bind_run by exact Hrun. }
    rewrite Hg', Hg1. destruct e as [now dataView | | |]; simpl;
      try (now destruct (genesisTS (this w) !! t)).
    destruct (genesisTS (this w) !! t) as [g|] eqn:Hg; simpl.
    + specialize (Hnz g eq_refl). replace (g =? 0) with false by lia.
      now rewrite andb_false_r.
    + now destruct (valid_packet dataView), (packetType_of dataView =? t).
Qed.

Lemma array_push_run (l : loc) (x : SensorDataPoint) (w : World) :
  (l < length (arrays w))%nat →
  array_push l x w =
  Some (tt, {| arrays := <[l := contents w l ++ [x]]> (arrays w); this := this w |}).
Proof.
  intros Hl. unfold array_push, array_write. run_method.
  rewrite (contents_lookup w l Hl). simpl. now rewrite (contents_lookup w l Hl).
Qed.

(** ** Numbers as rationals *)

Lemma to_Q_of_Z (z : Z) : (Num.to_Q (Num.of_Z z) == inject_Z z)%Q.
Proof. unfold Num.to_Q, Num.of_Z, Qeq, inject_Z. simpl. lia. Qed.

Lemma to_Q_add (a b : Num.t) : (Num.to_Q (Num.add a b) == Num.to_Q a + Num.to_Q b)%Q.
Proof. unfold Num.to_Q, Num.add, Qeq, Qplus. simpl. lia. Qed.

Lemma to_Q_sub (a b : Num.t) : (Num.to_Q (Num.sub a b) == Num.to_Q a - Num.to_Q b)%Q.
Proof. unfold Num.to_Q, Num.sub, Qeq, Qminus, Qplus, Qopp. simpl. lia. Qed.

Lemma to_Q_scale (n : Z) (a : Num.t) :
  (Num.to_Q (Num.scale n a) == inject_Z n * Num.to_Q a)%Q.
Proof. unfold Num.to_Q, Num.scale, Qeq, Qmult, inject_Z. simpl. lia. Qed.

Lemma to_Q_periods :
  (Num.to_Q ACC_SAMPLE_PERIOD_MS == 16)%Q ∧ (Num.to_Q PPG_SAMPLE_PERIOD_MS == 5 # 2)%Q ∧
  (Num.to_Q BUFFER_DURATION_MS == 60000)%Q.
Proof. repeat split. Qed.

Lemma to_Q_geb (a b : Num.t) : Num.geb a b = true ↔ (Num.to_Q b <= Num.to_Q a)%Q.
Proof. unfold Num.geb, Num.to_Q, Qle. simpl. lia. Qed.

(** * The claims *)

(** ** C1: timestamps *)

(** C1.  For every packet that is not dropped, with 16-bit counter [c], the
    point decoded at index [i] is pushed to the buffer of the packet's type
    and logged with the timestamp, in exact rational arithmetic,
    [genesis + (c*5 + i) * 16] for an ACC packet and
    [genesis + (c*5 + i) * 2.5] for a PPG packet, where [genesis] is the
    genesis of that type once the packet is handled.  When the ACC genesis
    is [T], an ACC packet with counter 0 and three samples followed by an
    ACC packet with counter 1 and three samples, on a new collector, fill
    the ACC buffer with the timestamps T, T+16, T+32, T+80, T+96, T+112. *)
Theorem timestamps_reconstructed :
  (∀ (now : Z) (dataView : list byte) (w : World) (i : nat),
     allocated w → valid_packet dataView = true →
     Z.of_nat i < sampleCount_of dataView →
     ∃ (r : option loc) (w' : World),
       handleNotification now dataView w = Some (r, w') ∧
       let c := packetCounter_of dataView in
       0 ≤ c < 2 ^ 16 ∧
       (packetType_of dataView = PACKET_TYPE_ACC →
        ∃ (g : Z) (p : SensorDataPoint),
          genesisTS (this w') !! PACKET_TYPE_ACC = Some g ∧
          contents w' (accDataPoints (this w)) !! (length (accData w) + i)%nat = Some p ∧
          csvRows (this w') !!
            (length (csvRows (this w')) - Z.to_nat (sampleCount_of dataView) + i)%nat =
            Some [CNum (timestamp_ms p); CNum (Num.of_Z (value p))] ∧
          timestamp_ms p = Num.of_Z (g + (c * 5 + Z.of_nat i) * 16) ∧
          (Num.to_Q (timestamp_ms p) ==
           inject_Z g + inject_Z (c * 5 + Z.of_nat i) * 16)%Q) ∧
       (packetType_of dataView = PACKET_TYPE_PPG →
        ∃ (g : Z) (p : SensorDataPoint),
          genesisTS (this w') !! PACKET_TYPE_PPG = Some g ∧
          contents w' (ppgDataPoints (this w)) !! (length (ppgData w) + i)%nat = Some p ∧
          csvRows (this w') !!
            (length (csvRows (this w')) - Z.to_nat (sampleCount_of dataView) + i)%nat =
            Some [CNum (timestamp_ms p); CNum (Num.of_Z (value p))] ∧
          (Num.to_Q (timestamp_ms p) ==
           inject_Z g + inject_Z (c * 5 + Z.of_nat i) * (5 # 2))%Q)) ∧
  (∀ nowA nowB : Z,
     ∃ (rA rB : option loc) (wA wB : World),
       handleNotification nowA
         [x01; x00; x00; x0a; x00; x00; x14; x00; x00; x1e; x00; x00] initial =
         Some (rA, wA) ∧
       handleNotification nowB
         [x01; x01; x00; x28; x00; x00; x32; x00; x00; x3c; x00; x00] wA =
         Some (rB, wB) ∧
       ∀ T : Z,
         genesisTS (this wA) !! PACKET_TYPE_ACC = Some T →
         genesisTS (this wB) !! PACKET_TYPE_ACC = Some T →
         timestamp_ms <$> accData wB =
           Num.of_Z <$> [T; T + 16; T + 32; T + 80; T + 96; T + 112] ∧
         value <$> accData wB = [10; 20; 30; 40; 50; 60]).
Proof.
  split.
  - intros now dataView w i Hw Hvalid Hi.
    destruct (handleNotification_valid now dataView w Hw Hvalid) as (r & w' & Hrun & Hfacts).
    exists r, w'. split; [exact Hrun|]. intros c.
    split; [apply packetCounter_range|].
    pose proof (handled_genesis _ _ _ _ _ Hfacts) as Hgen.
    pose proof (with_genesis_lookup now (packetType_of dataView) w) as Hg.
    rewrite <- Hgen in Hg.
    split; intros Htype; rewrite Htype in Hg;
      match type of Hg with _ = Some ?x => set (g := x) in Hg end.
    + destruct (handled_acc_sample now dataView w r w' i Hfacts Htype Hi) as [Hrow Hpt].
      eexists _, _. split; [exact Hg|]. split; [exact Hpt|]. split; [exact Hrow|].
      rewrite Hg. cbn [nullish decoded_point timestamp_ms]. fold c. split.
      * unfold Num.add, Num.of_Z, Num.scale, ACC_SAMPLE_PERIOD_MS. simpl. f_equal. lia.
      * rewrite to_Q_add, to_Q_scale, to_Q_of_Z.
        now rewrite (proj1 to_Q_periods).
    + destruct (handled_ppg_sample now dataView w r w' i Hfacts Htype Hi) as [Hrow Hpt].
      eexists _, _. split; [exact Hg|]. split; [exact Hpt|]. split; [exact Hrow|].
      rewrite Hg. cbn [nullish decoded_point timestamp_ms]. fold c.
      rewrite to_Q_add, to_Q_scale, to_Q_of_Z.
      now rewrite (proj1 (proj2 to_Q_periods)).
  - intros nowA nowB.
    set (pA := [x01; x00; x00; x0a; x00; x00; x14; x00; x00; x1e; x00; x00]).
    set (pB := [x01; x01; x00; x28; x00; x00; x32; x00; x00; x3c; x00; x00]).
    destruct (handleNotification_valid nowA pA initial (settled_allocated _ settled_initial)
                eq_refl) as (rA & wA & HrunA & HA).
    destruct (handleNotification_valid nowB pB wA (handled_allocated _ _ _ _ _ HA)
                eq_refl) as (rB & wB & HrunB & HB).
    exists rA, rB, wA, wB. split; [exact HrunA|]. split; [exact HrunB|].
    intros T HgA HgB.
    assert (∀ g : Z,
              decoded_points g ACC_SAMPLE_PERIOD_MS PACKET_TYPE_ACC pA 0 3 =
              (λ '(t, v), {| timestamp_ms := Num.of_Z t; value := v; type := 1 |}) <$>
                [(g, 10); (g + 16, 20); (g + 32, 30)]) as HpA.
    { intros g. unfold decoded_points. change (seqZ 0 3) with [0; 1; 2].
      unfold decoded_point. change (packetCounter_of pA) with 0.
      simpl. repeat f_equal; unfold Num.add, Num.of_Z, Num.scale; simpl; f_equal; lia. }
    assert (∀ g : Z,
              decoded_points g ACC_SAMPLE_PERIOD_MS PACKET_TYPE_ACC pB 0 3 =
              (λ '(t, v), {| timestamp_ms := Num.of_Z t; value := v; type := 1 |}) <$>
                [(g + 80, 40); (g + 96, 50); (g + 112, 60)]) as HpB.
    { intros g. unfold decoded_points. change (seqZ 0 3) with [0; 1; 2].
      unfold decoded_point. change (packetCounter_of pB) with 1.
      simpl. repeat f_equal; unfold Num.add, Num.of_Z, Num.scale; simpl; f_equal; lia. }
    assert (∀ g, g !! PACKET_TYPE_ACC = Some T →
                 new_points g pA PACKET_TYPE_ACC ACC_SAMPLE_PERIOD_MS =
                 decoded_points T ACC_SAMPLE_PERIOD_MS PACKET_TYPE_ACC pA 0 3) as HnA.
    { intros g Hg. unfold new_points. now rewrite Hg. }
    assert (∀ g, g !! PACKET_TYPE_ACC = Some T →
                 new_points g pB PACKET_TYPE_ACC ACC_SAMPLE_PERIOD_MS =
                 decoded_points T ACC_SAMPLE_PERIOD_MS PACKET_TYPE_ACC pB 0 3) as HnB.
    { intros g Hg. unfold new_points. now rewrite Hg. }
    pose proof (handled_acc _ _ _ _ _ HA) as HaccA.
    pose proof (handled_acc _ _ _ _ _ HB) as HaccB.
    rewrite (HnA _ HgA), HpA in HaccA. rewrite (HnB _ HgB), HpB in HaccB.
    change (accData initial) with (@nil SensorDataPoint) in HaccA.
    simpl in HaccA.
    erewrite trimmed_all in HaccA;
      [|reflexivity|unfold in_window, Num.geb; simpl; lia].
    rewrite HaccA in HaccB. simpl in HaccB.
    erewrite trimmed_all in HaccB;
      [|reflexivity|unfold in_window, Num.geb; simpl; lia].
    rewrite HaccB. split; reflexivity.
Qed.

Lemma timestamps_reconstructed_witness :
  ∃ (rA rB : option loc) (wA wB : World),
    handleNotification 1700000000000
      [x01; x00; x00; x0a; x00; x00; x14; x00; x00; x1e; x00; x00] initial =
      Some (rA, wA) ∧
    handleNotification 1700000000100
      [x01; x01; x00; x28; x00; x00; x32; x00; x00; x3c; x00; x00] wA =
      Some (rB, wB) ∧
    genesisTS (this wB) !! PACKET_TYPE_ACC = Some 1700000000000 ∧
    timestamp_ms <$> accData wB =
      Num.of_Z <$> [1700000000000; 1700000000016; 1700000000032;
                    1700000000080; 1700000000096; 1700000000112] ∧
    ∃ (r : option loc) (w : World) (g : Z) (p : SensorDataPoint),
      handleNotification 1700000000000
        [x02; x03; x00; x0a; x00; x00; x14; x00; x00] initial = Some (r, w) ∧
      genesisTS (this w) !! PACKET_TYPE_PPG = Some g ∧
      contents w (ppgDataPoints (this initial)) !! 1%nat = Some p ∧
      (Num.to_Q (timestamp_ms p) == inject_Z g + inject_Z (3 * 5 + 1) * (5 # 2))%Q.
Proof.
  pose proof (settled_allocated _ settled_initial) as Hw.
  destruct (proj2 timestamps_reconstructed 1700000000000 1700000000100)
    as (rA & rB & wA & wB & HA & HB & Hscenario).
  pose proof (handleNotification_settled _ _ _ _ _ settled_initial HA) as HwA.
  pose proof (handleNotification_genesis _ _ _ _ _ PACKET_TYPE_ACC Hw HA) as HgA.
  pose proof (handleNotification_genesis _ _ _ _ _ PACKET_TYPE_ACC
                (settled_allocated _ HwA) HB) as HgB.
  rewrite HgA in HgB.
  exists rA, rB, wA, wB. split; [exact HA|]. split; [exact HB|].
  split; [exact HgB|]. split; [exact (proj1 (Hscenario 1700000000000 HgA HgB))|].
  destruct (proj1 timestamps_reconstructed 1700000000000
              [x02; x03; x00; x0a; x00; x00; x14; x00; x00] initial 1%nat
              Hw eq_refl eq_refl) as (r & w & Hrun & _ & _ & Hppg).
  destruct (Hppg eq_refl) as (g & p & Hg & Hp & _ & Hts).
  exists r, w, g, p. split; [exact Hrun|]. split; [exact Hg|]. split; [exact Hp|].
  exact Hts.
Defined.

(** ** C2: the genesis epochs *)

(** C2.  With a wall clock, which never reads 0 (the handler tests the
    stored genesis for truthiness), in every session of a new collector
    the genesis of a type is the clock reading at the first packet of that
    type that is not dropped, and is absent before such a packet: it is
    assigned then and keeps that value whatever follows.  In one step: a
    genesis that is set is left alone by every later notification, of any
    type and at any clock reading. *)
Theorem genesis_set_once :
  (∀ (es : list event) (t : Z),
     wall_clock es →
     ∃ w, perform_all es initial = Some (tt, w) ∧
          genesisTS (this w) !! t = first_genesis t es) ∧
  (∀ (now : Z) (dataView : list byte) (w : World) (t g : Z),
     allocated w → genesisTS (this w) !! t = Some g → g ≠ 0 →
     ∃ (r : option loc) (w' : World),
       handleNotification now dataView w = Some (r, w') ∧
       genesisTS (this w') !! t = Some g).
Proof.
  split.
  - intros es t Hclocks.
    destruct (perform_all_genesis es initial t settled_initial) as (w & Hrun & Hg);
      [intros g; simpl; now rewrite lookup_empty | exact Hclocks |].
    exists w. split; [exact Hrun|]. rewrite Hg. simpl. now rewrite lookup_empty.
  - intros now dataView w t g Hw Hg Hnz.
    destruct (handleNotification_total now dataView w Hw) as (r & w' & Hrun).
    exists r, w'. split; [exact Hrun|].
    rewrite (handleNotification_genesis now dataView w r w' t Hw Hrun), Hg. simpl.
    replace (g =? 0) with false by lia. now rewrite andb_false_r.
Qed.

Lemma genesis_set_once_witness :
  let es :=
    [Notification 1000 [x01; x00; x00; x05; x00; x00];
     Notification 1400 [x02; x00; x00; x07; x00; x00];
     Notification 1800 [x01; x01; x00; x06; x00; x00];
     Stop;
     Notification 2200 [x02; x01; x00; x08; x00; x00]] in
  ∃ w, perform_all es initial = Some (tt, w) ∧
       genesisTS (this w) !! PACKET_TYPE_ACC = Some 1000 ∧
       genesisTS (this w) !! PACKET_TYPE_PPG = Some 1400.
Proof.
  intros es.
  assert (wall_clock es) as Hclocks by (repeat constructor; discriminate).
  destruct (proj1 genesis_set_once es PACKET_TYPE_ACC Hclocks) as (w & Hrun & Hacc).
  destruct (proj1 genesis_set_once es PACKET_TYPE_PPG Hclocks) as (w' & Hrun' & Hppg).
  rewrite Hrun in Hrun'. injection Hrun' as <-.
  exists w. split; [exact Hrun|]. split; [exact Hacc | exact Hppg].
Defined.

(** ** C3: trimming *)

(** C3.  On a buffer whose timestamps never decrease, each trim returns
    and leaves the entries from the first one whose timestamp is at
    least the latest timestamp minus 60000 ms: exactly the prefix of
    entries strictly older than that cutoff is discarded, and any two
    remaining entries differ by at most 60000 ms.  This holds for
    [trimAccBuffer] on the ACC buffer and for [trimPpgBuffer] on the PPG
    buffer. *)
Theorem trim_keeps_window (w : World) :
  allocated w →
  (ascending (accData w) →
   ∃ w', trimAccBuffer w = Some (tt, w') ∧ window (accData w) (accData w')) ∧
  (ascending (ppgData w) →
   ∃ w', trimPpgBuffer w = Some (tt, w') ∧ window (ppgData w) (ppgData w')).
Proof.
  intros [Ha Hp _]. split; intros Hasc.
  - destruct (trimAccBuffer_run w Ha) as (w' & Hrun & Hcase).
    exists w'. split; [exact Hrun|].
    replace (accData w') with (trimmed (accData w)).
    + now apply trimmed_respects_window.
    + destruct Hcase as [[-> Hs] | [-> _]]; [exact Hs|].
      unfold accData at 2. symmetry. apply contents_new.
  - destruct (trimPpgBuffer_run w Hp) as (w' & Hrun & Hcase).
    exists w'. split; [exact Hrun|].
    replace (ppgData w') with (trimmed (ppgData w)).
    + now apply trimmed_respects_window.
    + destruct Hcase as [[-> Hs] | [-> _]]; [exact Hs|].
      unfold ppgData at 2. symmetry. apply contents_new.
Qed.

Lemma trim_keeps_window_witness :
  let w :=
    {| arrays :=
         [[{| timestamp_ms := Num.of_Z 0; value := 1; type := 1 |};
           {| timestamp_ms := Num.of_Z 50000; value := 2; type := 1 |};
           {| timestamp_ms := Num.of_Z 70000; value := 3; type := 1 |}];
          []];
       this := this initial |} in
  allocated w ∧ ascending (accData w) ∧
  ∃ w', trimAccBuffer w = Some (tt, w') ∧ window (accData w) (accData w').
Proof.
  intros w.
  assert (allocated w) as Hw by (split; simpl; lia).
  assert (ascending (accData w)) as Hasc.
  { intros i j a b Hij Ha Hb.
    destruct i as [|[|[|i]]], j as [|[|[|j]]]; simpl in Ha, Hb; try discriminate;
      try lia; injection Ha as <-; injection Hb as <-; unfold Num.le; simpl; lia. }
  split; [exact Hw|]. split; [exact Hasc|].
  exact (proj1 (trim_keeps_window w Hw) Hasc).
Defined.

(** ** C4: sample decoding *)

(** C4.  For every packet that holds a complete 3-byte group
    [low, mid, high] at index [i] of its payload, the handler returns and the
    value it decodes for that group is [low | (mid << 8) | (high << 16)],
    a number between 0 and 2^24 - 1: it is the value of the [i]-th point
    pushed to the buffer of the packet's type and of the [i]-th of the rows
    appended to the log.  The payload [0x01, 0x02, 0x03] decodes to 197121. *)
Theorem samples_decoded :
  (∀ (now : Z) (dataView : list byte) (w : World) (i : nat) (low mid high : byte),
     allocated w →
     dataView !! (3 + 3 * i)%nat = Some low →
     dataView !! (3 + 3 * i + 1)%nat = Some mid →
     dataView !! (3 + 3 * i + 2)%nat = Some high →
     let v := Z.lor (Z.lor (u8 low) (Z.shiftl (u8 mid) 8)) (Z.shiftl (u8 high) 16) in
     0 ≤ v ≤ 2 ^ 24 - 1 ∧
     ∃ r w',
       handleNotification now dataView w = Some (r, w') ∧
       (packetType_of dataView = PACKET_TYPE_ACC →
        ∃ p, contents w' (accDataPoints (this w)) !! (length (accData w) + i)%nat = Some p ∧
             value p = v ∧
             csvRows (this w') !!
               (length (csvRows (this w')) - Z.to_nat (sampleCount_of dataView) + i)%nat =
             Some [CNum (timestamp_ms p); CNum (Num.of_Z v)]) ∧
       (packetType_of dataView = PACKET_TYPE_PPG →
        ∃ p, contents w' (ppgDataPoints (this w)) !! (length (ppgData w) + i)%nat = Some p ∧
             value p = v ∧
             csvRows (this w') !!
               (length (csvRows (this w')) - Z.to_nat (sampleCount_of dataView) + i)%nat =
             Some [CNum (timestamp_ms p); CNum (Num.of_Z v)])) ∧
  fst <$> (handleNotification 1000 [x01; x00; x00; x01; x02; x03];;
           l ← getAccData; array_read l) initial =
    Some [{| timestamp_ms := Num.of_Z 1000; value := 197121; type := PACKET_TYPE_ACC |}].
Proof.
  split; [|vm_compute; reflexivity].
  intros now dataView w i low mid high Hw Hl Hm Hh v.
  pose proof (sample_at_lookup dataView i low mid high Hl Hm Hh) as Hv. fold v in Hv.
  split.
  { unfold v. rewrite lor_bytes by apply u8_range.
    pose proof (u8_range low). pose proof (u8_range mid). pose proof (u8_range high).
    lia. }
  destruct (group_valid dataView i high Hh) as [Hvalid Hi].
  destruct (handleNotification_valid now dataView w Hw Hvalid) as (r & w' & Hrun & Hfacts).
  exists r, w'. split; [exact Hrun|]. split; intros Htype.
  - destruct (handled_acc_sample now dataView w r w' i Hfacts Htype Hi) as [Hrow Hpt].
    eexists. split; [exact Hpt|]. split; [exact Hv|].
    rewrite Hrow. unfold row_of. simpl. now rewrite Hv.
  - destruct (handled_ppg_sample now dataView w r w' i Hfacts Htype Hi) as [Hrow Hpt].
    eexists. split; [exact Hpt|]. split; [exact Hv|].
    rewrite Hrow. unfold row_of. simpl. now rewrite Hv.
Qed.

Lemma samples_decoded_witness :
  ∃ r w',
    handleNotification 1000 [x02; x07; x00; xff; xff; xff; x01; x02; x03] initial =
      Some (r, w') ∧
    ∃ p, contents w' (ppgDataPoints (this initial)) !! 1%nat = Some p ∧ value p = 197121.
Proof.
  destruct (proj1 samples_decoded 1000 [x02; x07; x00; xff; xff; xff; x01; x02; x03]
              initial 1%nat x01 x02 x03)
    as (_ & r & w' & Hrun & _ & Hppg);
    [split; simpl; lia | reflexivity | reflexivity | reflexivity |].
  exists r, w'. split; [exact Hrun|].
  destruct (Hppg eq_refl) as (p & Hp & Hv & _).
  exists p. split; [exact Hp | exact Hv].
Defined.

(** ** C5: short packets *)

(** C5.  A notification whose buffer is shorter than 3 bytes, or whose
    derived sample count [floor((length - 3) / 3)] is not positive, is
    dropped: the handler returns normally (no exception) and the world is
    the one it started from, so the genesis state, both sliding buffers and
    the record log are unchanged. *)
Theorem short_packet_dropped (now : Z) (dataView : list byte) (w : World) :
  Z.of_nat (length dataView) < 3 ∨ (Z.of_nat (length dataView) - 3) / 3 ≤ 0 →
  handleNotification now dataView w = Some (None, w).
Proof.
  intros Hshort. apply handleNotification_dropped.
  unfold valid_packet, sampleCount_of. apply andb_false_iff.
  destruct Hshort; [left | right]; lia.
Qed.

Lemma short_packet_dropped_witness :
  (Z.of_nat (length [x01; x07; x00; x05; x06]) - 3) / 3 ≤ 0 ∧
  handleNotification 1000 [x01; x07; x00; x05; x06] initial = Some (None, initial).
Proof.
  assert ((Z.of_nat (length [x01; x07; x00; x05; x06]) - 3) / 3 ≤ 0) as H
    by (vm_compute; discriminate).
  split; [exact H|]. apply short_packet_dropped. right. exact H.
Defined.

(** ** C6: packets of an unknown type *)

(** C6 as worded fails: the first packet of an unknown type appends a row,
    the "green" header, to the record log. *)
Lemma unknown_type_adds_no_row_refuted :
  ¬ (∀ (now : Z) (dataView : list byte) (w : World) (r : option loc) (w' : World),
       reachable w → valid_packet dataView = true →
       packetType_of dataView ≠ PACKET_TYPE_ACC →
       packetType_of dataView ≠ PACKET_TYPE_PPG →
       handleNotification now dataView w = Some (r, w') →
       accData w' = accData w ∧ ppgData w' = ppgData w ∧
       csvRows (this w') = csvRows (this w)).
Proof.
  intros Hclaim.
  destruct (Hclaim 1000 [x03; x00; x00; x01; x02; x03] initial None
              (with_genesis 1000 3 initial) reachable_initial eq_refl)
    as (_ & _ & Hrows); [discriminate | discriminate | | discriminate Hrows].
  now rewrite handleNotification_other by (apply settled_initial || done).
Qed.

(** C6, amended.  A packet that is not dropped and whose type byte is
    neither 1 nor 2 goes through the genesis step for its type byte and
    contributes no sample: the arrays, hence both sliding buffers, are
    untouched, and the record log receives no sample row.  When the
    genesis of that type byte is still unset, the step records the clock
    and appends one header row, ["timestamp_ms", "green"], to the log;
    otherwise the log and the genesis map are unchanged as well. *)
Theorem unknown_type_no_sample (now : Z) (dataView : list byte) (w : World) :
  reachable w → valid_packet dataView = true →
  packetType_of dataView ≠ PACKET_TYPE_ACC →
  packetType_of dataView ≠ PACKET_TYPE_PPG →
  ∃ (r : option loc) (w' : World),
    handleNotification now dataView w = Some (r, w') ∧
    arrays w' = arrays w ∧
    accDataPoints (this w') = accDataPoints (this w) ∧
    ppgDataPoints (this w') = ppgDataPoints (this w) ∧
    accData w' = accData w ∧
    ppgData w' = ppgData w ∧
    (if falsy (genesisTS (this w) !! packetType_of dataView)
     then genesisTS (this w') = <[packetType_of dataView := now]> (genesisTS (this w)) ∧
          csvRows (this w') = csvRows (this w) ++ [[CStr "timestamp_ms"; CStr "green"]]
     else genesisTS (this w') = genesisTS (this w) ∧
          csvRows (this w') = csvRows (this w)).
Proof.
  intros Hw Hvalid Hacc Hppg. apply reachable_settled in Hw.
  eexists _, _. split; [now apply handleNotification_other|].
  destruct (with_genesis_frame now (packetType_of dataView) w) as (Harr & Hla & Hlp & _ & _).
  unfold accData, ppgData, contents. rewrite Harr, Hla, Hlp.
  do 5 (split; [reflexivity|]).
  unfold with_genesis, header_row. destruct (falsy _); simpl; [|now split].
  apply Z.eqb_neq in Hacc. now rewrite Hacc.
Qed.

Lemma unknown_type_no_sample_witness :
  ∃ (r : option loc) (w' : World),
    handleNotification 1000 [x03; x00; x00; x01; x02; x03] initial = Some (r, w') ∧
    accData w' = accData initial ∧ ppgData w' = ppgData initial ∧
    csvRows (this w') = [[CStr "timestamp_ms"; CStr "green"]].
Proof.
  destruct (unknown_type_no_sample 1000 [x03; x00; x00; x01; x02; x03] initial)
    as (r & w' & Hrun & _ & _ & _ & Hacc & Hppg & Hrest);
    [apply reachable_initial | reflexivity | discriminate | discriminate |].
  exists r, w'. split; [exact Hrun|]. split; [exact Hacc|]. split; [exact Hppg|].
  exact (proj2 Hrest).
Defined.

(** ** C7: export *)

(** C7.  [downloadCSV] joins the cells of every row of the log with commas
    and the rows with newlines, and leaves the world alone; a string cell
    is written as it is, whatever it contains (no escaping).  When the log
    holds the ACC header and the two samples with timestamps 1000 and 1016
    and values 5 and 6, the text is exactly the header line, [1000,5] and
    [1016,6]; this is the log of a new collector that has received, at
    clock 1000, one ACC packet with counter 0 and samples 5 and 6. *)
Theorem export_csv :
  (∀ w : World,
     downloadCSV w =
     Some (join newline ((λ r, join "," (cell_to_string <$> r)) <$> csvRows (this w)), w)) ∧
  (∀ s : string, cell_to_string (CStr s) = s) ∧
  (∀ (sep a : string), join sep [a] = a) ∧
  (∀ (sep a b : string) (rest : list string),
     join sep (a :: b :: rest) = a +:+ sep +:+ join sep (b :: rest)) ∧
  (∀ w : World,
     csvRows (this w) =
       [[CStr "timestamp_ms"; CStr "magnitude_ug"];
        [CNum (Num.of_Z 1000); CNum (Num.of_Z 5)];
        [CNum (Num.of_Z 1016); CNum (Num.of_Z 6)]] →
     fst <$> downloadCSV w =
     Some ("timestamp_ms,magnitude_ug" +:+ newline +:+ "1000,5" +:+ newline +:+ "1016,6")) ∧
  fst <$> (handleNotification 1000 [x01; x00; x00; x05; x00; x00; x06; x00; x00];;
           field csvRows) initial =
    Some [[CStr "timestamp_ms"; CStr "magnitude_ug"];
          [CNum (Num.of_Z 1000); CNum (Num.of_Z 5)];
          [CNum (Num.of_Z 1016); CNum (Num.of_Z 6)]].
Proof.
  split; [reflexivity|]. split; [reflexivity|]. split; [reflexivity|].
  split; [reflexivity|]. split; [|vm_compute; reflexivity].
  intros w Hrows. unfold downloadCSV. run_method. rewrite Hrows.
  vm_compute. reflexivity.
Qed.

Lemma export_csv_witness :
  ∃ (r : option loc) (w : World),
    handleNotification 1000 [x01; x00; x00; x05; x00; x00; x06; x00; x00] initial =
      Some (r, w) ∧
    fst <$> downloadCSV w =
    Some ("timestamp_ms,magnitude_ug" +:+ newline +:+ "1000,5" +:+ newline +:+ "1016,6").
Proof.
  destruct export_csv as (_ & _ & _ & _ & Htext & Hlog).
  unfold mbind, M_bind in Hlog.
  destruct (handleNotification 1000 [x01; x00; x00; x05; x00; x00; x06; x00; x00] initial)
    as [[r w]|]; [|discriminate Hlog].
  exists r, w. split; [reflexivity|]. apply Htext.
  now injection Hlog.
Defined.

(** ** C8: stop *)

(** C8.  [stop()] always returns, and changes nothing but the connection
    flag: the genesis map, the record log, the store of arrays and the two
    buffer references are the same, so the accessors [getAccData],
    [getPpgData] and the export [downloadCSV] return after [stop()] what
    they returned before it. *)
Theorem stop_keeps_state (w : World) :
  ∃ w', stop w = Some (tt, w') ∧
        genesisTS (this w') = genesisTS (this w) ∧
        csvRows (this w') = csvRows (this w) ∧
        arrays w' = arrays w ∧
        accData w' = accData w ∧
        ppgData w' = ppgData w ∧
        fst <$> getAccData w' = fst <$> getAccData w ∧
        fst <$> getPpgData w' = fst <$> getPpgData w ∧
        fst <$> downloadCSV w' = fst <$> downloadCSV w.
Proof.
  destruct (stop_run w) as (w' & Hrun & Harr & b & Hthis).
  exists w'. split; [exact Hrun|].
  unfold accData, ppgData, contents, getAccData, getPpgData, downloadCSV.
  run_method. rewrite Harr, Hthis. simpl. repeat split.
Qed.

(** ** C9: the buffer accessors *)

(** C9 as worded fails on both counts: an
    array obtained from [getAccData] shows the entries pushed by a later
    notification, and a push on it is a push on the collector's buffer. *)
Lemma accessors_copy_refuted :
  ¬ (∀ (w w1 : World) (l : loc) (now : Z) (dataView : list byte) (r : option loc)
       (w' : World),
       reachable w → getAccData w = Some (l, w1) →
       handleNotification now dataView w1 = Some (r, w') →
       contents w' l = contents w l) ∧
  ¬ (∀ (w w1 : World) (l : loc) (x : SensorDataPoint) (w' : World),
       reachable w → getAccData w = Some (l, w1) →
       array_push l x w1 = Some (tt, w') →
       accData w' = accData w).
Proof.
  split; intros Hclaim.
  - destruct (handleNotification_valid 1000 [x01; x00; x00; x05; x00; x00] initial
                (settled_allocated _ settled_initial) eq_refl) as (r & w' & Hrun & Hfacts).
    pose proof (Hclaim initial initial 0%nat 1000 [x01; x00; x00; x05; x00; x00] r w'
                  reachable_initial eq_refl Hrun) as Hsame.
    change 0%nat with (accDataPoints (this initial)) in Hsame.
    rewrite (handled_acc_old _ _ _ _ _ Hfacts) in Hsame.
    apply (f_equal length) in Hsame.
    rewrite length_app, new_points_length in Hsame by reflexivity.
    vm_compute in Hsame. discriminate.
  - pose (x := {| timestamp_ms := Num.of_Z 0; value := 0; type := 0 |}).
    specialize (Hclaim initial initial 0%nat x
                  {| arrays := [[x]; []]; this := this initial |}
                  reachable_initial eq_refl eq_refl).
    discriminate Hclaim.
Qed.

(** C9, amended.  [getAccData] and [getPpgData] return the collector's own
    array, not a copy, and leave the world alone.  A push through a
    returned reference is a push on the collector's buffer.  After a later
    notification the returned array holds what it held plus the entries the
    notification pushed, and the collector's buffer is the trim of that
    array: the collector keeps the same array when the trim evicts nothing,
    and is rebound to a new array, leaving the returned one behind, when
    it does. *)
Theorem accessors_return_references (w : World) :
  reachable w →
  getAccData w = Some (accDataPoints (this w), w) ∧
  getPpgData w = Some (ppgDataPoints (this w), w) ∧
  (∀ x : SensorDataPoint,
     ∃ w', array_push (accDataPoints (this w)) x w = Some (tt, w') ∧
           accData w' = accData w ++ [x]) ∧
  (∀ x : SensorDataPoint,
     ∃ w', array_push (ppgDataPoints (this w)) x w = Some (tt, w') ∧
           ppgData w' = ppgData w ++ [x]) ∧
  (∀ (now : Z) (dataView : list byte),
     ∃ (r : option loc) (w' : World),
       handleNotification now dataView w = Some (r, w') ∧
       (∃ added : list SensorDataPoint,
          contents w' (accDataPoints (this w)) = accData w ++ added ∧
          accData w' = trimmed (accData w ++ added) ∧
          (trimmed (accData w ++ added) = accData w ++ added →
           accDataPoints (this w') = accDataPoints (this w)) ∧
          (trimmed (accData w ++ added) ≠ accData w ++ added →
           (length (arrays w) ≤ accDataPoints (this w'))%nat)) ∧
       (∃ added : list SensorDataPoint,
          contents w' (ppgDataPoints (this w)) = ppgData w ++ added ∧
          ppgData w' = trimmed (ppgData w ++ added) ∧
          (trimmed (ppgData w ++ added) = ppgData w ++ added →
           ppgDataPoints (this w') = ppgDataPoints (this w)) ∧
          (trimmed (ppgData w ++ added) ≠ ppgData w ++ added →
           (length (arrays w) ≤ ppgDataPoints (this w'))%nat))).
Proof.
  intros Hw. apply reachable_settled in Hw. destruct Hw as [[Ha Hp Hne] Hsa Hsp].
  split; [reflexivity|]. split; [reflexivity|]. split; [|split].
  - intros x. eexists. split; [now apply array_push_run|].
    unfold accData, contents. simpl. now rewrite list_lookup_insert_eq.
  - intros x. eexists. split; [now apply array_push_run|].
    unfold ppgData, contents. simpl. now rewrite list_lookup_insert_eq.
  - intros now dataView. destruct (valid_packet dataView) eqn:Hvalid.
    + destruct (handleNotification_valid now dataView w (Build_allocated _ Ha Hp Hne) Hvalid)
        as (r & w' & Hrun & Hfacts).
      exists r, w'. split; [exact Hrun|].
      destruct Hfacts as [_ _ Hacc Hppg Hao Hpo Har Hpr Han Hpn _ _ _ _ _ _].
      rewrite Hao in Har, Han. rewrite Hpo in Hpr, Hpn.
      split; eexists; (split; [eassumption|]); (split; [eassumption|]);
        split; assumption.
    + exists None, w. split; [now apply handleNotification_dropped|].
      split; exists []; rewrite app_nil_r; repeat split; try reflexivity;
        try (now symmetry); intros Hn; now destruct Hn.
Qed.

Lemma accessors_return_references_witness :
  ∃ (l : loc) (r : option loc) (w' : World),
    getAccData initial = Some (l, initial) ∧
    handleNotification 1000 [x01; x00; x00; x05; x00; x00] initial = Some (r, w') ∧
    ∃ added : list SensorDataPoint,
      contents w' l = contents initial l ++ added ∧
      accData w' = trimmed (contents initial l ++ added).
Proof.
  destruct (accessors_return_references initial reachable_initial)
    as (Hget & _ & _ & _ & Hlater).
  destruct (Hlater 1000 [x01; x00; x00; x05; x00; x00])
    as (r & w' & Hrun & (added & Hold & Hnew & _) & _).
  exists (accDataPoints (this initial)), r, w'.
  split; [exact Hget|]. split; [exact Hrun|]. exists added. split; [exact Hold | exact Hnew].
Defined.

(** ** C10: the other sensor *)

(** C10.  A packet of one sensor type that is not dropped leaves the other
    sensor alone in any reachable world: an ACC packet changes neither the
    PPG genesis, nor the PPG buffer (same array, same entries), and a PPG
    packet changes neither the ACC genesis nor the ACC buffer.  In both
    cases the record log only grows at its end, so the rows logged before,
    of either type, stay where they are. *)
Theorem other_sensor_untouched (now : Z) (dataView : list byte) (w : World) :
  reachable w → valid_packet dataView = true →
  ∃ (r : option loc) (w' : World),
    handleNotification now dataView w = Some (r, w') ∧
    (∃ added : list (list cell), csvRows (this w') = csvRows (this w) ++ added) ∧
    (packetType_of dataView = PACKET_TYPE_ACC →
     genesisTS (this w') !! PACKET_TYPE_PPG = genesisTS (this w) !! PACKET_TYPE_PPG ∧
     ppgDataPoints (this w') = ppgDataPoints (this w) ∧
     contents w' (ppgDataPoints (this w)) = contents w (ppgDataPoints (this w)) ∧
     ppgData w' = ppgData w) ∧
    (packetType_of dataView = PACKET_TYPE_PPG →
     genesisTS (this w') !! PACKET_TYPE_ACC = genesisTS (this w) !! PACKET_TYPE_ACC ∧
     accDataPoints (this w') = accDataPoints (this w) ∧
     contents w' (accDataPoints (this w)) = contents w (accDataPoints (this w)) ∧
     accData w' = accData w).
Proof.
  intros Hw Hvalid. apply reachable_settled in Hw.
  destruct Hw as [Halloc Hsa Hsp].
  destruct (handleNotification_valid now dataView w Halloc Hvalid)
    as (r & w' & Hrun & Hfacts).
  exists r, w'. split; [exact Hrun|].
  destruct Hfacts as [Hgen Hrows Hacc Hppg Hao Hpo Har Hpr _ _ _ _ _ _ _ _].
  split; [|split]; [| intros Htype..].
  - rewrite Hrows, with_genesis_rows, <- app_assoc. now eexists.
  - rewrite (new_points_other _ _ PACKET_TYPE_PPG) in Hppg, Hpo
      by (rewrite Htype; discriminate).
    rewrite app_nil_r in Hppg, Hpo. fold (ppgData w).
    rewrite Hpo in Hpr. rewrite Hgen, Htype.
    rewrite with_genesis_lookup_ne by discriminate.
    repeat split; [now apply Hpr | assumption | congruence].
  - rewrite (new_points_other _ _ PACKET_TYPE_ACC) in Hacc, Hao
      by (rewrite Htype; discriminate).
    rewrite app_nil_r in Hacc, Hao. fold (accData w).
    rewrite Hao in Har. rewrite Hgen, Htype.
    rewrite with_genesis_lookup_ne by discriminate.
    repeat split; [now apply Har | assumption | congruence].
Qed.

Lemma other_sensor_untouched_witness :
  ∃ (w : World) (r : option loc) (w' : World),
    perform_all [Notification 1000 [x02; x00; x00; x07; x00; x00; x08; x00; x00]] initial =
      Some (tt, w) ∧
    handleNotification 1400 [x01; x00; x00; x05; x00; x00] w = Some (r, w') ∧
    genesisTS (this w') !! PACKET_TYPE_PPG = genesisTS (this w) !! PACKET_TYPE_PPG ∧
    ppgDataPoints (this w') = ppgDataPoints (this w) ∧
    ppgData w' = ppgData w.
Proof.
  destruct (perform_all_total
              [Notification 1000 [x02; x00; x00; x07; x00; x00; x08; x00; x00]]
              initial settled_initial) as (w & Hw).
  assert (reachable w) as Hreach by (eexists; exact Hw).
  destruct (other_sensor_untouched 1400 [x01; x00; x00; x05; x00; x00] w
              Hreach eq_refl) as (r & w' & Hrun & _ & Hacc & _).
  destruct (Hacc eq_refl) as (Hg & Hl & _ & Hd).
  exists w, r, w'. split; [exact Hw|]. split; [exact Hrun|].
  split; [exact Hg|]. split; [exact Hl | exact Hd].
Defined.

(** * Further properties *)

(** ** X1: no exception *)


(** ** X2, X3: the trims without an ordering assumption *)

Lemma trimmed_pruned (arr : list SensorDataPoint) : pruned arr (trimmed arr).
Proof.
  destruct (last arr) as [latest|] eqn:Hlast.
  - destruct (trimmed_drop arr latest Hlast) as (j & e & _ & Hj & Ht & He & Hpe & Hbefore).
    exists (take j arr). rewrite Ht. split; [now rewrite take_drop|].
    split; [rewrite Hlast; rewrite <- Hlast; now apply last_drop_lt|].
    intros latest' Heq. assert (latest' = latest) as -> by congruence. split.
    + apply Forall_lookup. intros i x Hx.
      apply lookup_take_Some in Hx as [Hx Hi].
      specialize (Hbefore i x Hx Hi). unfold in_window, Num.geb in Hbefore.
      unfold Num.lt. lia.
    + intros first Hfirst. rewrite (drop_S _ _ _ He) in Hfirst.
      injection Hfirst as <-. unfold in_window, Num.geb in Hpe. unfold Num.le. lia.
  - apply last_None in Hlast. subst arr. exists []. split; [reflexivity|].
    split; [reflexivity|]. intros latest' [=].
Qed.

Lemma accData_after_trim (w w' : World) :
  (w' = w ∧ trimmed (accData w) = accData w ∨
   w' = rebound_acc w (trimmed (accData w)) ∧ trimmed (accData w) ≠ accData w) →
  accData w' = trimmed (accData w).
Proof.
  intros [[-> Hs] | [-> _]]; [now symmetry|]. unfold accData at 1. apply contents_new.
Qed.

Lemma ppgData_after_trim (w w' : World) :
  (w' = w ∧ trimmed (ppgData w) = ppgData w ∨
   w' = rebound_ppg w (trimmed (ppgData w)) ∧ trimmed (ppgData w) ≠ ppgData w) →
  ppgData w' = trimmed (ppgData w).
Proof.
  intros [[-> Hs] | [-> _]]; [now symmetry|]. unfold ppgData at 1. apply contents_new.
Qed.

(** X2.  With no assumption on the order of the timestamps, a trim only
    removes a prefix of the buffer, every removed entry is strictly older
    than the latest timestamp minus 60000 ms, and the latest entry always
    stays: a trim never empties a buffer and never discards an entry of the
    last 60 s. *)
Theorem trim_never_drops_recent (w : World) :
  allocated w →
  (∃ w', trimAccBuffer w = Some (tt, w') ∧ pruned (accData w) (accData w')) ∧
  (∃ w', trimPpgBuffer w = Some (tt, w') ∧ pruned (ppgData w) (ppgData w')).
Proof.
  intros [Ha Hp _]. split.
  - destruct (trimAccBuffer_run w Ha) as (w' & Hrun & Hcase).
    exists w'. split; [exact Hrun|].
    rewrite (accData_after_trim w w' Hcase). apply trimmed_pruned.
  - destruct (trimPpgBuffer_run w Hp) as (w' & Hrun & Hcase).
    exists w'. split; [exact Hrun|].
    rewrite (ppgData_after_trim w w' Hcase). apply trimmed_pruned.
Qed.

Lemma trim_never_drops_recent_witness :
  let w :=
    {| arrays :=
         [[{| timestamp_ms := Num.of_Z 90000; value := 1; type := 1 |};
           {| timestamp_ms := Num.of_Z 0; value := 2; type := 1 |};
           {| timestamp_ms := Num.of_Z 70000; value := 3; type := 1 |}];
          []];
       this := this initial |} in
  ∃ w', trimAccBuffer w = Some (tt, w') ∧ pruned (accData w) (accData w').
Proof.
  intros w. apply (trim_never_drops_recent w). split; simpl; lia.
Defined.

(** X3.  A trim right after a trim does nothing at all: the world is the
    same, and no new array is made. *)
Theorem trim_twice (w : World) :
  allocated w →
  (∃ w', trimAccBuffer w = Some (tt, w') ∧ trimAccBuffer w' = Some (tt, w')) ∧
  (∃ w', trimPpgBuffer w = Some (tt, w') ∧ trimPpgBuffer w' = Some (tt, w')).
Proof.
  intros [Ha Hp _]. split.
  - destruct (trimAccBuffer_run w Ha) as (w' & Hrun & Hcase).
    exists w'. split; [exact Hrun|].
    pose proof (accData_after_trim w w' Hcase) as Hdata.
    assert (accDataPoints (this w') < length (arrays w'))%nat as Ha'.
    { destruct Hcase as [[-> _] | [-> _]]; simpl; rewrite ?length_app; simpl; lia. }
    destruct (trimAccBuffer_run w' Ha') as (w2 & Hrun2 & [[-> _] | [_ Hne]]);
      [exact Hrun2|].
    exfalso. apply Hne. rewrite Hdata. apply trimmed_idem.
  - destruct (trimPpgBuffer_run w Hp) as (w' & Hrun & Hcase).
    exists w'. split; [exact Hrun|].
    pose proof (ppgData_after_trim w w' Hcase) as Hdata.
    assert (ppgDataPoints (this w') < length (arrays w'))%nat as Hp'.
    { destruct Hcase as [[-> _] | [-> _]]; simpl; rewrite ?length_app; simpl; lia. }
    destruct (trimPpgBuffer_run w' Hp') as (w2 & Hrun2 & [[-> _] | [_ Hne]]);
      [exact Hrun2|].
    exfalso. apply Hne. rewrite Hdata. apply trimmed_idem.
Qed.

Lemma trim_twice_witness :
  let w :=
    {| arrays :=
         [[{| timestamp_ms := Num.of_Z 0; value := 1; type := 1 |};
           {| timestamp_ms := Num.of_Z 50000; value := 2; type := 1 |};
           {| timestamp_ms := Num.of_Z 70000; value := 3; type := 1 |}];
          []];
       this := this initial |} in
  ∃ w', trimAccBuffer w = Some (tt, w') ∧ trimAccBuffer w' = Some (tt, w').
Proof.
  intros w. apply (trim_twice w). split; simpl; lia.
Defined.

(** ** X4: the application's poll *)

Lemma filter_none {A : Type} (p : A → bool) (l : list A) :
  Forall (λ x, p x = false) l → List.filter p l = [].
Proof.
  induction 1 as [|x l Hx _ IH]; [reflexivity|]. simpl. now rewrite Hx.
Qed.

Lemma displayed_trimmed (arr : list SensorDataPoint) :
  displayed (trimmed arr) = displayed arr.
Proof.
  destruct (last arr) as [latest|] eqn:Hlast.
  - destruct (trimmed_drop arr latest Hlast) as (j & e & _ & Hj & Ht & _ & _ & Hbefore).
    unfold displayed. rewrite Ht, (last_drop_lt _ _ Hj), Hlast. f_equal.
    symmetry. rewrite <- (take_drop j arr) at 1.
    rewrite List.filter_app, filter_none; [reflexivity|].
    apply Forall_lookup. intros i x Hx. apply lookup_take_Some in Hx as [Hx Hi].
    specialize (Hbefore i x Hx Hi). unfold in_window, Num.geb in Hbefore.
    unfold Num.geb, Num.sub, BUFFER_DURATION_MS, Num.of_Z, WINDOW_SECONDS in *.
    simpl in *. lia.
  - apply last_None in Hlast. now subst arr.
Qed.

Lemma poll_elements (data : list SensorDataPoint) (w : World) :
  (if (0 <? length data)%nat
   then
     lift (data !! (length data - 1)%nat) ≫= λ latest,
       mret (Some (List.filter
                     (λ d, Num.geb (timestamp_ms d)
                             (Num.sub (timestamp_ms latest)
                                (Num.of_Z (WINDOW_SECONDS * 1000))))
                     data))
   else mret None) w = Some (displayed data, w).
Proof.
  unfold displayed. destruct data as [|d data] using rev_ind; [reflexivity|].
  rewrite length_app, last_snoc. simpl.
  replace (0 <? length data + 1)%nat with true by (symmetry; apply Nat.ltb_lt; lia).
  replace (length data + 1 - 1)%nat with (length data) by lia.
  now rewrite list_lookup_middle.
Qed.

Lemma pollAcc_run (w : World) :
  (accDataPoints (this w) < length (arrays w))%nat →
  pollAcc w = Some (displayed (accData w), w).
Proof.
  intros Hl. unfold pollAcc, getAccData.
  erewrite bind_run by reflexivity. cbv beta.
  erewrite bind_run by (unfold array_read; rewrite (contents_lookup w _ Hl); reflexivity).
  apply poll_elements.
Qed.

Lemma pollPpg_run (w : World) :
  (ppgDataPoints (this w) < length (arrays w))%nat →
  pollPpg w = Some (displayed (ppgData w), w).
Proof.
  intros Hl. unfold pollPpg, getPpgData.
  erewrite bind_run by reflexivity. cbv beta.
  erewrite bind_run by (unfold array_read; rewrite (contents_lookup w _ Hl); reflexivity).
  apply poll_elements.
Qed.

(** X4.  The 60 s kept by the collector always cover the 30 s that the
    application shows: the chart data that the poll computes right after a
    trim is the chart data it would have computed right before it, for
    each sensor and with no assumption on the order of the timestamps.
    The poll itself changes nothing in the collector. *)
Theorem poll_unaffected_by_trim (w : World) :
  allocated w →
  (∃ (w' : World) (chart : option (list SensorDataPoint)),
     trimAccBuffer w = Some (tt, w') ∧
     pollAcc w = Some (chart, w) ∧ pollAcc w' = Some (chart, w')) ∧
  (∃ (w' : World) (chart : option (list SensorDataPoint)),
     trimPpgBuffer w = Some (tt, w') ∧
     pollPpg w = Some (chart, w) ∧ pollPpg w' = Some (chart, w')).
Proof.
  intros [Ha Hp _]. split.
  - destruct (trimAccBuffer_run w Ha) as (w' & Hrun & Hcase).
    exists w', (displayed (accData w)). split; [exact Hrun|].
    split; [now apply pollAcc_run|].
    rewrite pollAcc_run.
    + now rewrite (accData_after_trim w w' Hcase), displayed_trimmed.
    + destruct Hcase as [[-> _] | [-> _]]; simpl; rewrite ?length_app; simpl; lia.
  - destruct (trimPpgBuffer_run w Hp) as (w' & Hrun & Hcase).
    exists w', (displayed (ppgData w)). split; [exact Hrun|].
    split; [now apply pollPpg_run|].
    rewrite pollPpg_run.
    + now rewrite (ppgData_after_trim w w' Hcase), displayed_trimmed.
    + destruct Hcase as [[-> _] | [-> _]]; simpl; rewrite ?length_app; simpl; lia.
Qed.

Lemma poll_unaffected_by_trim_witness :
  let w :=
    {| arrays :=
         [[{| timestamp_ms := Num.of_Z 0; value := 1; type := 1 |};
           {| timestamp_ms := Num.of_Z 50000; value := 2; type := 1 |};
           {| timestamp_ms := Num.of_Z 70000; value := 3; type := 1 |}];
          []];
       this := this initial |} in
  ∃ (w' : World) (chart : option (list SensorDataPoint)),
    trimAccBuffer w = Some (tt, w') ∧
    pollAcc w = Some (chart, w) ∧ pollAcc w' = Some (chart, w').
Proof.
  intros w. apply (poll_unaffected_by_trim w). split; simpl; lia.
Defined.

(** ** Steps of a session *)

(** What the calls other than a notification change: two flags. *)
Lemma perform_call_frame (e : event) (w w' : World) :
  (∀ now dataView, e ≠ Notification now dataView) →
  perform e w = Some (tt, w') →
  arrays w' = arrays w ∧
  ∃ (b c : bool), this w' = set_gattConnected b (set_onDataCallback c (this w)).
Proof.
  intros Hcall. destruct e as [now dataView | | |]; simpl.
  - now destruct (Hcall now dataView).
  - intros [= <-]. split; [reflexivity|].
    exists true, (onDataCallback (this w)). now destruct (this w).
  - intros [= <-]. split; [reflexivity|].
    exists (gattConnected (this w)), true. now destruct (this w).
  - intros Hrun. destruct (stop_run w) as (w1 & Hrun1 & Harr & b & Hthis).
    rewrite Hrun in Hrun1. injection Hrun1 as <-. split; [exact Harr|].
    exists b, (onDataCallback (this w)). rewrite Hthis. now destruct (this w).
Qed.

(** A step of a session either leaves the buffers, the log and the genesis
    map alone, or is a notification that was not dropped. *)
Lemma perform_cases (e : event) (w w' : World) :
  allocated w → perform e w = Some (tt, w') →
  (arrays w' = arrays w ∧ accDataPoints (this w') = accDataPoints (this w) ∧
   ppgDataPoints (this w') = ppgDataPoints (this w) ∧
   csvRows (this w') = csvRows (this w) ∧ genesisTS (this w') = genesisTS (this w)) ∨
  ∃ (now : Z) (dataView : list byte) (r : option loc),
    e = Notification now dataView ∧ valid_packet dataView = true ∧
    handled now dataView w r w'.
Proof.
  intros Hw Hrun. destruct e as [now dataView | | |].
  - simpl in Hrun. apply bind_inv in Hrun as (r & w1 & Hrun & Hret).
    injection Hret as <-. destruct (valid_packet dataView) eqn:Hvalid.
    + right. exists now, dataView, r. split; [reflexivity|]. split; [exact Hvalid|].
      destruct (handleNotification_valid now dataView w Hw Hvalid)
        as (r0 & w0 & Hrun0 & Hfacts).
      rewrite Hrun in Hrun0. now injection Hrun0 as <- <-.
    + left. rewrite handleNotification_dropped in Hrun by assumption.
      injection Hrun as <- <-. repeat split.
  - left. destruct (perform_call_frame Connect w w' ltac:(discriminate) Hrun)
      as (Harr & b & c & Hthis). rewrite Harr, Hthis. repeat split.
  - left. destruct (perform_call_frame OnData w w' ltac:(discriminate) Hrun)
      as (Harr & b & c & Hthis). rewrite Harr, Hthis. repeat split.
  - left. destruct (perform_call_frame Stop w w' ltac:(discriminate) Hrun)
      as (Harr & b & c & Hthis). rewrite Harr, Hthis. repeat split.
Qed.

(** Induction over the sessions, with a condition [Q] on their events. *)
Lemma perform_all_invariant (P : World → Prop) (Q : event → Prop) :
  (∀ (e : event) (w w' : World),
     settled w → P w → Q e → perform e w = Some (tt, w') → P w') →
  ∀ (es : list event) (w w' : World),
    settled w → P w → Forall Q es → perform_all es w = Some (tt, w') → P w'.
Proof.
  intros Hstep es. induction es as [|e rest IH]; intros w w' Hw HP HQ; simpl.
  - now intros [= <-].
  - intros Hrun. apply bind_inv in Hrun as ([] & w1 & Hrun & Hrest).
    apply Forall_cons in HQ as [HQe HQrest].
    apply (IH w1 w'); try assumption.
    + eapply perform_settled; eassumption.
    + eapply Hstep; eassumption.
Qed.

Lemma reachable_invariant (P : World → Prop) :
  P initial →
  (∀ (e : event) (w w' : World),
     settled w → P w → perform e w = Some (tt, w') → P w') →
  ∀ w : World, reachable w → P w.
Proof.
  intros Hinit Hstep w [es Hrun].
  apply (perform_all_invariant P (λ _, True)) with (es := es) (w := initial);
    try assumption.
  - intros e w0 w1 Hs HP _. now apply Hstep.
  - apply settled_initial.
  - now apply Forall_forall.
Qed.

Lemma perform_all_app (es es' : list event) (w : World) :
  perform_all (es ++ es') w =
  match perform_all es w with
  | Some (_, w1) => perform_all es' w1
  | None => None
  end.
Proof.
  revert w. induction es as [|e rest IH]; intros w; simpl; [reflexivity|].
  unfold mbind, M_bind. destruct (perform e w) as [[[] w1]|]; [apply IH | reflexivity].
Qed.

(** ** X5: the log only grows *)

Lemma perform_rows (e : event) (w w' : World) :
  allocated w → perform e w = Some (tt, w') →
  ∃ added : list (list cell),
    csvRows (this w') = csvRows (this w) ++ added ∧
    Forall (λ row, length row = 2%nat) added.
Proof.
  intros Hw Hrun.
  destruct (perform_cases e w w' Hw Hrun)
    as [(_ & _ & _ & Hrows & _) | (now & dataView & r & _ & _ & Hfacts)].
  - exists []. rewrite app_nil_r. now split.
  - rewrite (handled_rows _ _ _ _ _ Hfacts), with_genesis_rows, <- app_assoc.
    eexists. split; [reflexivity|]. apply Forall_app. split.
    + destruct (falsy _); [|constructor]. constructor; [|constructor].
      unfold header_row. now destruct (_ =? _).
    + apply Forall_fmap. now apply Forall_forall.
Qed.

Lemma perform_all_rows (es : list event) (w : World) :
  settled w →
  ∃ (w' : World) (added : list (list cell)),
    perform_all es w = Some (tt, w') ∧
    csvRows (this w') = csvRows (this w) ++ added ∧
    Forall (λ row, length row = 2%nat) added.
Proof.
  revert w. induction es as [|e rest IH]; intros w Hw.
  - exists w, []. rewrite app_nil_r. now repeat split.
  - destruct (perform_total e w (settled_allocated _ Hw)) as (w1 & Hrun).
    destruct (perform_rows e w w1 (settled_allocated _ Hw) Hrun) as (added & Hrows & Hadded).
    destruct (IH w1 (perform_settled e w w1 Hw Hrun)) as (w' & added' & Hrest & Hrows' & Hadded').
    exists w', (added ++ added'). split.
    + simpl. now erewrite bind_run by exact Hrun.
    + split; [now rewrite Hrows', Hrows, app_assoc|]. apply Forall_app. now split.
Qed.

Lemma reachable_rows (w : World) :
  reachable w → Forall (λ row, length row = 2%nat) (csvRows (this w)).
Proof.
  intros [es Hrun].
  destruct (perform_all_rows es initial settled_initial) as (w' & added & Hrun' & Hrows & Hadded).
  rewrite Hrun in Hrun'. injection Hrun' as <-. now rewrite Hrows.
Qed.

(** X5.  The record log is append-only and rectangular: whatever happens
    after a reachable world (notifications of any kind, trims, [stop]),
    the rows logged so far stay at the head of the log, in order, and
    every row of the log has exactly two cells. *)
Theorem log_only_grows (w : World) (es : list event) :
  reachable w →
  ∃ (w' : World) (added : list (list cell)),
    perform_all es w = Some (tt, w') ∧
    csvRows (this w') = csvRows (this w) ++ added ∧
    Forall (λ row, length row = 2%nat) (csvRows (this w')).
Proof.
  intros Hreach. pose proof (reachable_rows w Hreach) as Hrect.
  destruct (perform_all_rows es w (reachable_settled _ Hreach))
    as (w' & added & Hrun & Hrows & Hadded).
  exists w', added. split; [exact Hrun|]. split; [exact Hrows|].
  rewrite Hrows. apply Forall_app. now split.
Qed.

Lemma log_only_grows_witness :
  ∃ (w' : World) (added : list (list cell)),
    perform_all [Notification 1000 [x02; x00; x00; x07; x00; x00]; Stop] initial =
      Some (tt, w') ∧
    csvRows (this w') = csvRows (this initial) ++ added ∧
    Forall (λ row, length row = 2%nat) (csvRows (this w')).
Proof.
  exact (log_only_grows initial
           [Notification 1000 [x02; x00; x00; x07; x00; x00]; Stop] reachable_initial).
Defined.

(** ** X6: the export only grows *)

Lemma string_app_assoc (a b c : string) : (a +:+ b) +:+ c = a +:+ (b +:+ c).
Proof.
  induction a as [|x a IH]; [reflexivity|].
  change (String x ((a +:+ b) +:+ c) = String x (a +:+ (b +:+ c))). now f_equal.
Qed.

Lemma join_app (sep : string) (l l' : list string) :
  l ≠ [] → l' ≠ [] → join sep (l ++ l') = join sep l +:+ sep +:+ join sep l'.
Proof.
  intros Hl Hl'. induction l as [|a l IH]; [congruence|].
  destruct l as [|b l].
  - destruct l' as [|c l']; [congruence|]. reflexivity.
  - change (join sep ((a :: b :: l) ++ l')) with (a +:+ sep +:+ join sep ((b :: l) ++ l')).
    rewrite IH by discriminate.
    change (join sep (a :: b :: l)) with (a +:+ sep +:+ join sep (b :: l)).
    now rewrite !string_app_assoc.
Qed.

Lemma join_grows (sep : string) (l l' : list string) :
  ∃ suffix : string, join sep (l ++ l') = join sep l +:+ suffix.
Proof.
  destruct l as [|a l]; [now exists (join sep l')|].
  destruct l' as [|b l'].
  - exists EmptyString. rewrite app_nil_r.
    induction (join sep (a :: l)) as [|x t IH]; [reflexivity|].
    change (String x t = String x (t +:+ EmptyString)). now f_equal.
  - exists (sep +:+ join sep (b :: l')). now apply join_app.
Qed.

(** X6.  The export is append-only as a text: what [downloadCSV] writes in
    a reachable world is a prefix of what it writes at any later time, so a
    file exported early is never contradicted by a file exported later.
    [downloadCSV] itself changes nothing. *)
Theorem export_only_grows (w : World) (es : list event) :
  reachable w →
  ∃ (text text' suffix : string) (w' : World),
    downloadCSV w = Some (text, w) ∧
    perform_all es w = Some (tt, w') ∧
    downloadCSV w' = Some (text', w') ∧
    text' = text +:+ suffix.
Proof.
  intros Hreach.
  destruct (perform_all_rows es w (reachable_settled _ Hreach))
    as (w' & added & Hrun & Hrows & _).
  destruct (join_grows newline
              ((λ r, join "," (cell_to_string <$> r)) <$> csvRows (this w))
              ((λ r, join "," (cell_to_string <$> r)) <$> added)) as (suffix & Hsuffix).
  eexists _, _, suffix, w'. split; [reflexivity|]. split; [exact Hrun|].
  split; [reflexivity|]. cbv beta. rewrite Hrows.
  change (map ?f ?l) with (f <$> l). now rewrite fmap_app.
Qed.

Lemma export_only_grows_witness :
  ∃ (text text' suffix : string) (w' : World),
    downloadCSV initial = Some (text, initial) ∧
    perform_all [Notification 1000 [x01; x00; x00; x07; x00; x00]] initial = Some (tt, w') ∧
    downloadCSV w' = Some (text', w') ∧
    text' = text +:+ suffix.
Proof.
  exact (export_only_grows initial [Notification 1000 [x01; x00; x00; x07; x00; x00]]
           reachable_initial).
Defined.

(** ** X7: one header row per type byte *)

Lemma wall_clock_events (es : list event) :
  wall_clock es →
  Forall (λ e, match e with Notification now _ => now ≠ 0 | _ => True end) es.
Proof.
  unfold wall_clock. induction es as [|e rest IH]; [constructor|].
  destruct e; simpl; intros H; try (constructor; [exact I | now apply IH]).
  apply Forall_cons in H as [? ?]. constructor; [assumption | now apply IH].
Qed.

Lemma sample_rows_no_header (ps : list SensorDataPoint) :
  List.filter is_header (row_of <$> ps) = [].
Proof. apply filter_none, Forall_fmap. now apply Forall_forall. Qed.

(** X7.  With a wall clock, the log of a new collector holds exactly one
    header row for each type byte that has a genesis, that is for each
    type byte seen in a packet that was not dropped: a header is written
    when a type is first seen and never again. *)
Theorem one_header_per_type (es : list event) :
  wall_clock es →
  ∃ w : World,
    perform_all es initial = Some (tt, w) ∧
    length (List.filter is_header (csvRows (this w))) = size (genesisTS (this w)).
Proof.
  intros Hclock. apply wall_clock_events in Hclock.
  destruct (perform_all_total es initial settled_initial) as (w & Hrun).
  exists w. split; [exact Hrun|].
  enough (length (List.filter is_header (csvRows (this w))) = size (genesisTS (this w)) ∧
          ∀ t g, genesisTS (this w) !! t = Some g → g ≠ 0) as [H _] by exact H.
  revert Hrun.
  apply (perform_all_invariant
           (λ w, length (List.filter is_header (csvRows (this w))) =
                 size (genesisTS (this w)) ∧
                 ∀ t g, genesisTS (this w) !! t = Some g → g ≠ 0)
           (λ e, match e with Notification now _ => now ≠ 0 | _ => True end));
    [| apply settled_initial | | exact Hclock].
  - clear. intros e w w' Hw [Hcount Hnz] HQ Hrun.
    destruct (perform_cases e w w' (settled_allocated _ Hw) Hrun)
      as [(_ & _ & _ & Hrows & Hgen) | (now & dataView & r & -> & _ & Hfacts)].
    + rewrite Hrows, Hgen. now split.
    + rewrite (handled_rows _ _ _ _ _ Hfacts), (handled_genesis _ _ _ _ _ Hfacts).
      rewrite List.filter_app, sample_rows_no_header, app_nil_r.
      unfold with_genesis. destruct (falsy _) eqn:Hf; simpl; [|now split].
      assert (genesisTS (this w) !! packetType_of dataView = None) as Hnone.
      { destruct (genesisTS (this w) !! packetType_of dataView) as [g|] eqn:Hg;
          [|reflexivity].
        specialize (Hnz _ _ Hg). simpl in Hf. lia. }
      split.
      * rewrite List.filter_app, length_app, Hcount, map_size_insert_None by exact Hnone.
        unfold header_row. destruct (_ =? _); simpl; lia.
      * intros t g. destruct (decide (packetType_of dataView = t)) as [<- | Hne].
        -- rewrite lookup_insert_eq. now intros [= <-].
        -- rewrite lookup_insert_ne by exact Hne. apply Hnz.
  - split; [reflexivity|]. intros t g. simpl. now rewrite lookup_empty.
Qed.

Lemma one_header_per_type_witness :
  ∃ w : World,
    perform_all [Notification 1000 [x01; x00; x00; x05; x00; x00];
                 Notification 1400 [x02; x00; x00; x07; x00; x00];
                 Notification 1800 [x01; x01; x00; x06; x00; x00]] initial =
      Some (tt, w) ∧
    length (List.filter is_header (csvRows (this w))) = size (genesisTS (this w)).
Proof.
  apply one_header_per_type. repeat constructor; discriminate.
Defined.

(** ** X8: what the buffers hold *)

Lemma sample_at_range (dataView : list byte) (i : Z) :
  0 ≤ sample_at dataView i ≤ 2 ^ 24 - 1.
Proof.
  unfold sample_at.
  pose proof (byte_at_range dataView (3 + i * 3)).
  pose proof (byte_at_range dataView (3 + i * 3 + 1)).
  pose proof (byte_at_range dataView (3 + i * 3 + 2)). lia.
Qed.

Lemma new_points_entries (g : gmap Z Z) (dataView : list byte) (which : Z)
    (period : Num.t) :
  Forall (λ p, type p = which ∧ 0 ≤ value p ≤ 2 ^ 24 - 1)
    (new_points g dataView which period).
Proof.
  unfold new_points. destruct (_ =? _); [|constructor].
  apply Forall_fmap, Forall_forall. intros i _. split; [reflexivity|].
  apply sample_at_range.
Qed.

Lemma trimmed_Forall (P : SensorDataPoint → Prop) (arr : list SensorDataPoint) :
  Forall P arr → Forall P (trimmed arr).
Proof.
  intros H. destruct (trimmed_pruned arr) as (dropped & Harr & _).
  rewrite Harr in H. now apply Forall_app in H as [_ H].
Qed.

Lemma entries_step (t : Z) (w w' : World) (old new : list SensorDataPoint)
    (rows : list (list cell)) :
  csvRows (this w') = csvRows (this w) ++ rows →
  Forall (entry_of t w) old →
  Forall (λ p, type p = t ∧ 0 ≤ value p ≤ 2 ^ 24 - 1) new →
  Forall (λ p, row_of p ∈ rows) new →
  Forall (entry_of t w') (trimmed (old ++ new)).
Proof.
  intros Hrows Hold Hnew Hlogged. apply trimmed_Forall, Forall_app. split.
  - eapply Forall_impl; [exact Hold|]. intros p (Ht & Hv & Hrow).
    unfold entry_of. split; [exact Ht|]. split; [exact Hv|].
    rewrite Hrows. apply elem_of_app. now left.
  - rewrite Forall_forall in Hnew, Hlogged. apply Forall_forall. intros p Hp.
    destruct (Hnew p Hp) as [Ht Hv].
    unfold entry_of. split; [exact Ht|]. split; [exact Hv|].
    rewrite Hrows. apply elem_of_app. right. exact (Hlogged p Hp).
Qed.

(** X8.  In every reachable world the ACC buffer holds only entries of
    type 1 and the PPG buffer only entries of type 2, each with a value
    between 0 and 2^24 - 1, and each entry of a buffer has its row
    [timestamp, value] in the record log: the buffers never hold anything
    that the export lacks. *)
Theorem buffers_hold_logged_entries (w : World) :
  reachable w →
  Forall (λ p, type p = PACKET_TYPE_ACC ∧ 0 ≤ value p ≤ 2 ^ 24 - 1 ∧
               [CNum (timestamp_ms p); CNum (Num.of_Z (value p))] ∈ csvRows (this w))
    (accData w) ∧
  Forall (λ p, type p = PACKET_TYPE_PPG ∧ 0 ≤ value p ≤ 2 ^ 24 - 1 ∧
               [CNum (timestamp_ms p); CNum (Num.of_Z (value p))] ∈ csvRows (this w))
    (ppgData w).
Proof.
  revert w.
  apply (reachable_invariant
           (λ w, Forall (entry_of PACKET_TYPE_ACC w) (accData w) ∧
                 Forall (entry_of PACKET_TYPE_PPG w) (ppgData w))).
  { split; constructor. }
  intros e w w' Hw [Hacc Hppg] Hrun.
  destruct (perform_cases e w w' (settled_allocated _ Hw) Hrun)
    as [(Harr & Hla & Hlp & Hrows & _) | (now & dataView & r & _ & _ & Hfacts)].
  - unfold accData, ppgData, contents, entry_of in *. now rewrite Harr, Hla, Hlp, Hrows.
  - pose proof (handled_rows _ _ _ _ _ Hfacts) as Hrows.
    rewrite with_genesis_rows, <- app_assoc in Hrows.
    rewrite (handled_acc _ _ _ _ _ Hfacts), (handled_ppg _ _ _ _ _ Hfacts).
    split; (eapply entries_step; [exact Hrows | assumption | apply new_points_entries |]).
    + apply Forall_forall. intros p Hp. apply elem_of_app. right.
      apply list_elem_of_fmap. exists p. split; [reflexivity|].
      apply elem_of_app. now left.
    + apply Forall_forall. intros p Hp. apply elem_of_app. right.
      apply list_elem_of_fmap. exists p. split; [reflexivity|].
      apply elem_of_app. now right.
Qed.

Lemma buffers_hold_logged_entries_witness :
  ∃ w : World,
    perform_all [Notification 1000 [x01; x00; x00; x05; x00; x00]] initial = Some (tt, w) ∧
    Forall (λ p, type p = PACKET_TYPE_ACC ∧ 0 ≤ value p ≤ 2 ^ 24 - 1 ∧
                 [CNum (timestamp_ms p); CNum (Num.of_Z (value p))] ∈ csvRows (this w))
      (accData w).
Proof.
  destruct (perform_all_total [Notification 1000 [x01; x00; x00; x05; x00; x00]] initial
              settled_initial) as (w & Hrun).
  exists w. split; [exact Hrun|].
  apply (buffers_hold_logged_entries w). now exists [Notification 1000 [x01; x00; x00; x05; x00; x00]].
Defined.

(** ** X9: the data callback *)

(** X9.  The listener registered with [onData] is called exactly for the
    notifications that are not dropped, whatever their type, and it is
    handed the ACC buffer as it is after the trims, also for a PPG packet;
    without a listener nothing is called.  A notification never
    unregisters the listener. *)
Theorem callback_gets_acc_buffer (now : Z) (dataView : list byte) (w : World) :
  allocated w →
  (∃ (r : option loc) (w' : World),
     handleNotification now dataView w = Some (r, w') ∧
     r = (if onDataCallback (this w) && valid_packet dataView
          then Some (accDataPoints (this w')) else None) ∧
     onDataCallback (this w') = onDataCallback (this w)) ∧
  (∃ (r : option loc) (w' : World),
     (onData;; handleNotification now dataView) w = Some (r, w') ∧
     r = (if valid_packet dataView then Some (accDataPoints (this w')) else None)).
Proof.
  assert (∀ w0 : World, allocated w0 →
            ∃ (r : option loc) (w' : World),
              handleNotification now dataView w0 = Some (r, w') ∧
              r = (if onDataCallback (this w0) && valid_packet dataView
                   then Some (accDataPoints (this w')) else None) ∧
              onDataCallback (this w') = onDataCallback (this w0)) as Hgen.
  { intros w0 Hw0. destruct (valid_packet dataView) eqn:Hvalid.
    - destruct (handleNotification_valid now dataView w0 Hw0 Hvalid)
        as (r & w' & Hrun & Hfacts).
      exists r, w'. split; [exact Hrun|]. rewrite andb_true_r.
      split; [apply Hfacts | apply Hfacts].
    - exists None, w0. split; [now apply handleNotification_dropped|].
      now rewrite andb_false_r. }
  intros Hw. split; [now apply Hgen|].
  destruct (Hgen {| arrays := arrays w; this := set_onDataCallback true (this w) |})
    as (r & w' & Hrun & Hr & _).
  { destruct Hw. now split. }
  exists r, w'. split; [exact Hrun | exact Hr].
Qed.

Lemma callback_gets_acc_buffer_witness :
  ∃ (r : option loc) (w' : World),
    (onData;; handleNotification 1000 [x02; x00; x00; x07; x00; x00]) initial =
      Some (r, w') ∧
    r = Some (accDataPoints (this w')).
Proof.
  destruct (callback_gets_acc_buffer 1000 [x02; x00; x00; x07; x00; x00] initial
              (settled_allocated _ settled_initial)) as (_ & r & w' & Hrun & Hr).
  exists r, w'. split; [exact Hrun | exact Hr].
Defined.

(** ** X10: trailing bytes *)

Lemma getUint8_app_l (dataView extra : list byte) (k : Z) :
  k < Z.of_nat (length dataView) →
  getUint8 (dataView ++ extra) k = getUint8 dataView k.
Proof.
  intros Hk. unfold getUint8. destruct (k <? 0) eqn:Hneg; [reflexivity|].
  now rewrite lookup_app_l by lia.
Qed.

Lemma bind_ext {A B : Type} (m : M A) (f g : A → M B) (w : World) :
  (∀ (a : A) (w1 : World), f a w1 = g a w1) → (m ≫= f) w = (m ≫= g) w.
Proof.
  intros H. unfold mbind, M_bind. destruct (m w) as [[a w1]|]; [apply H | reflexivity].
Qed.

Lemma bind_same {A B : Type} (m m' : M A) (f : A → M B) (w : World) :
  m w = m' w → (m ≫= f) w = (m' ≫= f) w.
Proof. intros H. unfold mbind, M_bind. now rewrite H. Qed.

Lemma sample_body_ext (dataView dataView' : list byte) (packetType packetCounter i : Z) :
  (∀ k, 0 ≤ k < 3 + i * 3 + 3 → getUint8 dataView' k = getUint8 dataView k) →
  0 ≤ i →
  sample_body dataView' packetType packetCounter i =
  sample_body dataView packetType packetCounter i.
Proof.
  intros Hsame Hi. unfold sample_body. now rewrite !Hsame by lia.
Qed.

Lemma sample_loop_ext (dataView dataView' : list byte) (packetType packetCounter : Z)
    (n : nat) (i : Z) (w : World) :
  (∀ k, 0 ≤ k < 3 + (i + Z.of_nat n) * 3 → getUint8 dataView' k = getUint8 dataView k) →
  0 ≤ i →
  sample_loop dataView' packetType packetCounter i n w =
  sample_loop dataView packetType packetCounter i n w.
Proof.
  revert i w. induction n as [|n IH]; intros i w Hsame Hi; [reflexivity|].
  cbn [sample_loop]. rewrite (sample_body_ext dataView dataView') by (intros; apply Hsame; lia) || lia.
  unfold mbind, M_bind. destruct (sample_body _ _ _ _ w) as [[[] w1]|]; [|reflexivity].
  apply IH; [intros; apply Hsame|]; lia.
Qed.

(** X10.  Bytes after the last complete 3-byte sample are ignored: a
    packet followed by one or two extra bytes is handled exactly as the
    packet alone, with the same result and the same world. *)
Theorem trailing_bytes_ignored (now : Z) (dataView extra : list byte) (w : World) :
  3 ≤ Z.of_nat (length dataView) →
  (Z.of_nat (length dataView) - 3) mod 3 = 0 →
  (length extra < 3)%nat →
  handleNotification now (dataView ++ extra) w = handleNotification now dataView w.
Proof.
  intros Hlen Hmod Hextra.
  assert ((Z.of_nat (length (dataView ++ extra)) - 3) / 3 =
          (Z.of_nat (length dataView) - 3) / 3) as Hcount.
  { rewrite length_app, Nat2Z.inj_add.
    apply Z.mod_divide in Hmod as [q Hq]; [|lia].
    replace (Z.of_nat (length dataView) + Z.of_nat (length extra) - 3)
      with (Z.of_nat (length extra) + q * 3) by lia.
    rewrite Hq, Z.div_add, Z.div_mul, Z.div_small by lia. lia. }
  pose proof (sampleCount_fits dataView Hlen) as Hfits. unfold sampleCount_of in Hfits.
  unfold handleNotification. cbv zeta. rewrite Hcount.
  replace (Z.of_nat (length (dataView ++ extra)) <? 3) with false
    by (symmetry; apply Z.ltb_ge; rewrite length_app; lia).
  replace (Z.of_nat (length dataView) <? 3) with false by lia. cbv iota.
  unfold getUint16. rewrite !getUint8_app_l by lia.
  rewrite !getUint8_byte_at by lia. do 2 step. symmetry. do 2 step. symmetry.
  destruct (_ <=? 0); [reflexivity|].
  step. symmetry. step. symmetry.
  apply bind_ext. intros [] w1. apply bind_same.
  apply sample_loop_ext; [|lia].
  intros k Hk. apply getUint8_app_l. lia.
Qed.

Lemma trailing_bytes_ignored_witness :
  handleNotification 1000 ([x01; x00; x00; x05; x00; x00] ++ [xff; xff]) initial =
  handleNotification 1000 [x01; x00; x00; x05; x00; x00] initial.
Proof.
  apply trailing_bytes_ignored; [simpl; lia | reflexivity | simpl; lia].
Defined.

(** ** X11: the latest entry *)

Lemma last_trimmed (arr : list SensorDataPoint) : last (trimmed arr) = last arr.
Proof. now destruct (trimmed_pruned arr) as (_ & _ & H & _). Qed.

(** X11.  After a packet that is not dropped, the buffer of its type is
    never empty and its latest entry, the one the application reads the
    display window from, is the last sample of that packet: its timestamp
    is [genesis + (c*5 + n - 1) * period] for a packet with counter [c] and
    [n] samples, whatever the buffer held before. *)
Theorem latest_is_last_sample (now : Z) (dataView : list byte) (w : World) :
  allocated w → valid_packet dataView = true →
  ∃ (r : option loc) (w' : World),
    handleNotification now dataView w = Some (r, w') ∧
    let c := packetCounter_of dataView in
    let n := sampleCount_of dataView in
    (packetType_of dataView = PACKET_TYPE_ACC →
     ∃ (g : Z) (p : SensorDataPoint),
       genesisTS (this w') !! PACKET_TYPE_ACC = Some g ∧
       last (accData w') = Some p ∧
       timestamp_ms p = Num.of_Z (g + (c * 5 + (n - 1)) * 16)) ∧
    (packetType_of dataView = PACKET_TYPE_PPG →
     ∃ (g : Z) (p : SensorDataPoint),
       genesisTS (this w') !! PACKET_TYPE_PPG = Some g ∧
       last (ppgData w') = Some p ∧
       (Num.to_Q (timestamp_ms p) ==
        inject_Z g + inject_Z (c * 5 + (n - 1)) * (5 # 2))%Q).
Proof.
  intros Hw Hvalid. destruct (valid_packet_length _ Hvalid) as [Hlen Hcount].
  destruct (handleNotification_valid now dataView w Hw Hvalid) as (r & w' & Hrun & Hfacts).
  exists r, w'. split; [exact Hrun|]. intros c n.
  pose proof (handled_genesis _ _ _ _ _ Hfacts) as Hgen.
  pose proof (with_genesis_lookup now (packetType_of dataView) w) as Hg.
  rewrite <- Hgen in Hg.
  assert (Z.of_nat (Z.to_nat n - 1) = n - 1) as Hidx by (unfold n; lia).
  assert (Z.of_nat (Z.to_nat n - 1) < sampleCount_of dataView) as Hi by (unfold n; lia).
  split; intros Htype; rewrite Htype in Hg;
    match type of Hg with _ = Some ?x => set (g := x) in Hg end.
  - destruct (handled_acc_sample now dataView w r w' _ Hfacts Htype Hi) as [_ Hpt].
    eexists _, _. split; [exact Hg|]. split.
    + rewrite (handled_acc _ _ _ _ _ Hfacts), last_trimmed, last_lookup.
      rewrite <- (handled_acc_old _ _ _ _ _ Hfacts), <- Hpt. f_equal.
      rewrite (handled_acc_old _ _ _ _ _ Hfacts), length_app, new_points_length
        by exact Htype. fold n. lia.
    + rewrite Hg. cbn [nullish decoded_point timestamp_ms]. fold c. rewrite Hidx.
      unfold Num.add, Num.of_Z, Num.scale, ACC_SAMPLE_PERIOD_MS. simpl. f_equal. lia.
  - destruct (handled_ppg_sample now dataView w r w' _ Hfacts Htype Hi) as [_ Hpt].
    eexists _, _. split; [exact Hg|]. split.
    + rewrite (handled_ppg _ _ _ _ _ Hfacts), last_trimmed, last_lookup.
      rewrite <- (handled_ppg_old _ _ _ _ _ Hfacts), <- Hpt. f_equal.
      rewrite (handled_ppg_old _ _ _ _ _ Hfacts), length_app, new_points_length
        by exact Htype. fold n. lia.
    + rewrite Hg. cbn [nullish decoded_point timestamp_ms]. fold c. rewrite Hidx.
      rewrite to_Q_add, to_Q_scale, to_Q_of_Z.
      now rewrite (proj1 (proj2 to_Q_periods)).
Qed.

Lemma latest_is_last_sample_witness :
  ∃ (r : option loc) (w' : World) (g : Z) (p : SensorDataPoint),
    handleNotification 1000 [x01; x02; x00; x05; x00; x00; x06; x00; x00] initial =
      Some (r, w') ∧
    genesisTS (this w') !! PACKET_TYPE_ACC = Some g ∧
    last (accData w') = Some p ∧
    timestamp_ms p = Num.of_Z (g + (2 * 5 + (2 - 1)) * 16).
Proof.
  destruct (latest_is_last_sample 1000 [x01; x02; x00; x05; x00; x00; x06; x00; x00]
              initial (settled_allocated _ settled_initial) eq_refl)
    as (r & w' & Hrun & Hacc & _).
  destruct (Hacc eq_refl) as (g & p & Hg & Hlast & Hts).
  exists r, w', g, p. split; [exact Hrun|]. split; [exact Hg|]. split; [exact Hlast|].
  exact Hts.
Defined.

(** ** X12: buffers in timestamp order *)

Lemma ascending_app_r (a b : list SensorDataPoint) : ascending (a ++ b) → ascending b.
Proof.
  intros H i j x y Hij Hx Hy.
  apply (H (length a + i)%nat (length a + j)%nat); [lia | |];
    rewrite lookup_app_r by lia.
  - now replace (length a + i - length a)%nat with i by lia.
  - now replace (length a + j - length a)%nat with j by lia.
Qed.

Lemma decoded_points_lookup (g : Z) (period : Num.t) (t : Z) (dataView : list byte)
    (n : Z) (k : nat) (p : SensorDataPoint) :
  decoded_points g period t dataView 0 n !! k = Some p →
  Z.of_nat k < n ∧ p = decoded_point g period t dataView (Z.of_nat k).
Proof.
  unfold decoded_points. rewrite list_lookup_fmap. intros Hp.
  destruct (seqZ 0 n !! k) as [z|] eqn:Hz; [|discriminate].
  apply lookup_seqZ in Hz as [-> Hk]. simpl in Hp. injection Hp as <-.
  split; [lia|]. now f_equal.
Qed.

(** Pushing the points of a packet whose counter is above the last one
    keeps the timestamps in order, when no packet has more than 5 samples. *)
Lemma ascending_push (g : Z) (period : Num.t) (t : Z) (dataView : list byte)
    (old : list SensorDataPoint) (prev n : Z) :
  0 ≤ Num.halves period →
  ascending old →
  (∀ p, p ∈ old →
        Num.halves (timestamp_ms p) ≤ 2 * g + (prev * 5 + 4) * Num.halves period) →
  prev < packetCounter_of dataView → n ≤ 5 →
  ascending (old ++ decoded_points g period t dataView 0 n) ∧
  ∀ p, p ∈ old ++ decoded_points g period t dataView 0 n →
       Num.halves (timestamp_ms p) ≤
       2 * g + (packetCounter_of dataView * 5 + 4) * Num.halves period.
Proof.
  intros Hperiod Hasc Hbound Hprev Hn.
  set (c := packetCounter_of dataView) in *. set (h := Num.halves period) in *.
  assert (∀ k p, decoded_points g period t dataView 0 n !! k = Some p →
                 Z.of_nat k < n ∧
                 Num.halves (timestamp_ms p) = 2 * g + (c * 5 + Z.of_nat k) * h) as Hnew.
  { intros k p Hp. apply decoded_points_lookup in Hp as [Hk ->]. split; [exact Hk|].
    reflexivity. }
  split.
  - intros i j a b Hij Ha Hb. unfold Num.le.
    apply lookup_app_Some in Ha as [Ha | [Hi Ha]], Hb as [Hb | [Hj Hb]].
    + exact (Hasc i j a b Hij Ha Hb).
    + apply Hnew in Hb as [Hk Hb]. rewrite Hb.
      specialize (Hbound a ltac:(apply list_elem_of_lookup; now exists i)). nia.
    + apply lookup_lt_Some in Hb. lia.
    + apply Hnew in Ha as [Hka Ha]. apply Hnew in Hb as [Hkb Hb]. rewrite Ha, Hb. nia.
  - intros p Hp. apply elem_of_app in Hp as [Hp | Hp].
    + specialize (Hbound p Hp). nia.
    + apply list_elem_of_lookup in Hp as [k Hp]. apply Hnew in Hp as [Hk Hp].
      rewrite Hp. nia.
Qed.

Lemma trimmed_ordered (arr : list SensorDataPoint) :
  ascending arr → ascending (trimmed arr) ∧ within_window (trimmed arr).
Proof.
  intros Hasc. split.
  - destruct (trimmed_pruned arr) as (dropped & Harr & _).
    rewrite Harr in Hasc. now apply ascending_app_r in Hasc.
  - now destruct (trimmed_respects_window arr Hasc) as (_ & _ & _ & H).
Qed.

Lemma trimmed_elem (arr : list SensorDataPoint) (p : SensorDataPoint) :
  p ∈ trimmed arr → p ∈ arr.
Proof.
  destruct (trimmed_pruned arr) as (dropped & Harr & _). intros Hp.
  rewrite Harr. apply elem_of_app. now right.
Qed.

Section Ordered.

Variable t : Z.
Variable period : Num.t.
Variable data : World → list SensorDataPoint.

Hypothesis period_nonneg : 0 ≤ Num.halves period.
Hypothesis data_handled :
  ∀ now dataView w r w',
    handled now dataView w r w' →
    data w' = trimmed (data w ++ new_points (genesisTS (this w')) dataView t period).
Hypothesis data_frame :
  ∀ w w',
    arrays w' = arrays w → accDataPoints (this w') = accDataPoints (this w) →
    ppgDataPoints (this w') = ppgDataPoints (this w) → data w' = data w.

Lemma in_order_weaken (prev prev' : Z) (w : World) :
  prev ≤ prev' → in_order t period data prev w → in_order t period data prev' w.
Proof.
  intros Hle (Hasc & Hwin & Hgen). split; [exact Hasc|]. split; [exact Hwin|].
  destruct (genesisTS (this w) !! t) as [g|]; [|exact Hgen].
  destruct Hgen as [Hnz Hbound]. split; [exact Hnz|].
  intros p Hp. specialize (Hbound p Hp). nia.
Qed.

Lemma in_order_step (e : event) (prev : Z) (w w' : World) :
  settled w → in_order t period data prev w →
  match e with Notification now _ => now ≠ 0 | _ => True end →
  in_sequence t prev [e] →
  perform e w = Some (tt, w') →
  in_order t period data
    (match e with
     | Notification _ dataView =>
         if valid_packet dataView && (packetType_of dataView =? t)
         then packetCounter_of dataView else prev
     | _ => prev
     end) w'.
Proof.
  intros Hw (Hasc & Hwin & Hgen) Hclock Hseq Hrun.
  destruct (perform_cases e w w' (settled_allocated _ Hw) Hrun)
    as [(Harr & Hla & Hlp & _ & Hg) | (now & dataView & r & -> & Hvalid & Hfacts)].
  - assert (in_order t period data prev w') as Hsame.
    { unfold in_order. now rewrite (data_frame w w' Harr Hla Hlp), Hg. }
    destruct e as [now dataView | | |]; try exact Hsame.
    destruct (valid_packet dataView && (packetType_of dataView =? t)) eqn:Hb;
      [|exact Hsame].
    simpl in Hseq. rewrite Hb in Hseq.
    apply (in_order_weaken prev); [lia | exact Hsame].
  - simpl in Hseq. rewrite Hvalid in *. simpl in *.
    pose proof (data_handled _ _ _ _ _ Hfacts) as Hdata.
    pose proof (handled_genesis _ _ _ _ _ Hfacts) as Hgen'.
    destruct (packetType_of dataView =? t) eqn:Ht.
    + apply Z.eqb_eq in Ht. destruct Hseq as (Hn & Hprev & _).
      pose proof (with_genesis_lookup now (packetType_of dataView) w) as Hlook.
      rewrite <- Hgen', Ht in Hlook.
      unfold new_points in Hdata. rewrite Ht, Z.eqb_refl, Hlook in Hdata.
      cbn [nullish] in Hdata.
      match type of Hlook with _ = Some ?x => set (g := x) in * end.
      assert (g ≠ 0 ∧
              ∀ p, p ∈ data w →
                   Num.halves (timestamp_ms p) ≤
                   2 * g + (prev * 5 + 4) * Num.halves period) as [Hnz Hbound].
      { unfold g. destruct (genesisTS (this w) !! t) as [g0|] eqn:Hg0.
        - destruct Hgen as [Hnz Hbound]. simpl.
          replace (g0 =? 0) with false by lia. now split.
        - simpl. split; [exact Hclock|]. rewrite Hgen. intros p Hp. inversion Hp. }
      destruct (ascending_push g period t dataView (data w) prev
                  (sampleCount_of dataView) period_nonneg Hasc Hbound Hprev Hn)
        as [Hasc' Hbound'].
      unfold in_order. rewrite Hdata, Hlook.
      destruct (trimmed_ordered _ Hasc') as [Ho Hwin'].
      split; [exact Ho|]. split; [exact Hwin'|]. split; [exact Hnz|].
      intros p Hp. apply Hbound'. now apply trimmed_elem.
    + apply Z.eqb_neq in Ht.
      rewrite new_points_other, app_nil_r in Hdata by exact Ht.
      unfold in_order. rewrite Hdata, Hgen', with_genesis_lookup_ne by exact Ht.
      destruct (trimmed_ordered _ Hasc) as [Ho Hwin'].
      split; [exact Ho|]. split; [exact Hwin'|].
      destruct (genesisTS (this w) !! t) as [g|].
      * destruct Hgen as [Hnz Hbound]. split; [exact Hnz|].
        intros p Hp. apply Hbound. now apply trimmed_elem.
      * now rewrite Hgen.
Qed.

Lemma in_order_session (es : list event) (prev : Z) (w : World) :
  settled w → in_order t period data prev w →
  Forall (λ e, match e with Notification now _ => now ≠ 0 | _ => True end) es →
  in_sequence t prev es →
  ∃ (w' : World) (prev' : Z), perform_all es w = Some (tt, w') ∧ in_order t period data prev' w'.
Proof.
  revert prev w. induction es as [|e rest IH]; intros prev w Hw Hord Hclock Hseq.
  - now exists w, prev.
  - apply Forall_cons in Hclock as [Hnow Hclock].
    destruct (perform_total e w (settled_allocated _ Hw)) as (w1 & Hrun).
    assert (in_sequence t prev [e] ∧
            in_sequence t
              (match e with
               | Notification _ dataView =>
                   if valid_packet dataView && (packetType_of dataView =? t)
                   then packetCounter_of dataView else prev
               | _ => prev
               end) rest) as [Hhead Hrest].
    { destruct e as [now dataView | | |]; simpl in *; try (now split).
      destruct (valid_packet dataView && (packetType_of dataView =? t));
        [|now split].
      destruct Hseq as (? & ? & ?). now repeat split. }
    pose proof (in_order_step e prev w w1 Hw Hord Hnow Hhead Hrun) as Hord1.
    destruct (IH _ w1 (perform_settled e w w1 Hw Hrun) Hord1 Hclock Hrest)
      as (w' & prev' & Hall & Hord').
    exists w', prev'. split; [|exact Hord'].
    simpl. now erewrite bind_run by exact Hrun.
Qed.

End Ordered.

Lemma in_order_initial (t : Z) (period : Num.t)
    (data : World → list SensorDataPoint) (prev : Z) :
  data initial = [] → in_order t period data prev initial.
Proof.
  intros Hdata. unfold in_order. rewrite Hdata. simpl.
  split; [intros i j a b _ Ha; inversion Ha|].
  split; [intros a b Ha; inversion Ha | reflexivity].
Qed.

(** X12. [handleNotification], lines 86-150, with [trimAccBuffer] and
    [trimPpgBuffer], lines 152-176: in a session of a new collector whose
    clock never reads 0, if the accelerometer packets that carry samples
    come with strictly increasing counters and at most 5 samples each, the
    session runs and leaves the accelerometer buffer in ascending timestamp
    order with any two of its points at most BUFFER_DURATION_MS apart; the
    same holds for the PPG packets and the PPG buffer.  The order is what
    the trim relies on when it cuts at the first point inside the window. *)
Theorem buffers_stay_ordered (es : list event) :
  wall_clock es →
  (in_sequence PACKET_TYPE_ACC (-1) es →
   ∃ w : World,
     perform_all es initial = Some (tt, w) ∧
     ascending (accData w) ∧ within_window (accData w)) ∧
  (in_sequence PACKET_TYPE_PPG (-1) es →
   ∃ w : World,
     perform_all es initial = Some (tt, w) ∧
     ascending (ppgData w) ∧ within_window (ppgData w)).
Proof.
  intros Hclock. apply wall_clock_events in Hclock. split; intros Hseq.
  - destruct (in_order_session PACKET_TYPE_ACC ACC_SAMPLE_PERIOD_MS accData
                ltac:(simpl; lia)
                ltac:(intros now dataView w r w' H; exact (handled_acc _ _ _ _ _ H))
                ltac:(intros w w' Ha Hl _; unfold accData, contents; now rewrite Ha, Hl)
                es (-1) initial settled_initial
                (in_order_initial _ _ _ _ eq_refl) Hclock Hseq)
      as (w & prev & Hrun & Hasc & Hwin & _).
    now exists w.
  - destruct (in_order_session PACKET_TYPE_PPG PPG_SAMPLE_PERIOD_MS ppgData
                ltac:(simpl; lia)
                ltac:(intros now dataView w r w' H; exact (handled_ppg _ _ _ _ _ H))
                ltac:(intros w w' Ha _ Hl; unfold ppgData, contents; now rewrite Ha, Hl)
                es (-1) initial settled_initial
                (in_order_initial _ _ _ _ eq_refl) Hclock Hseq)
      as (w & prev & Hrun & Hasc & Hwin & _).
    now exists w.
Qed.

Lemma buffers_stay_ordered_witness :
  ∃ w : World,
    perform_all [Notification 1000 [x01; x00; x00; x05; x00; x00; x06; x00; x00];
                 Notification 1400 [x02; x00; x00; x07; x00; x00];
                 Notification 1800 [x01; x02; x00; x06; x00; x00]] initial =
      Some (tt, w) ∧
    ascending (accData w) ∧ within_window (accData w).
Proof.
  apply (buffers_stay_ordered
           [Notification 1000 [x01; x00; x00; x05; x00; x00; x06; x00; x00];
            Notification 1400 [x02; x00; x00; x07; x00; x00];
            Notification 1800 [x01; x02; x00; x06; x00; x00]]).
  - repeat constructor; discriminate.
  - vm_compute. repeat split; discriminate.
Defined.

(** ** X13: the chart is the recent end of the buffer *)

Lemma filter_all {A : Type} (p : A → bool) (l : list A) :
  Forall (λ x, p x = true) l → List.filter p l = l.
Proof.
  induction 1 as [|x l Hx _ IH]; [reflexivity|]. simpl. now rewrite Hx, IH.
Qed.

Lemma filter_ascending (c : Num.t) (data : list SensorDataPoint) :
  ascending data →
  ∃ k : nat, List.filter (λ d, Num.geb (timestamp_ms d) c) data = drop k data.
Proof.
  induction data as [|x rest IH]; intros Hasc; [now exists 0%nat|].
  simpl. destruct (Num.geb (timestamp_ms x) c) eqn:Hx.
  - exists 0%nat. rewrite drop_0. f_equal. apply filter_all, Forall_lookup.
    intros i y Hy. pose proof (Hasc 0%nat (S i) x y ltac:(lia) eq_refl Hy) as Hle.
    unfold Num.geb, Num.le in *. lia.
  - destruct (IH (ascending_app_r [x] rest Hasc)) as [k Hk].
    exists (S k). now rewrite Hk.
Qed.

Lemma displayed_suffix (data : list SensorDataPoint) :
  ascending data → data ≠ [] →
  ∃ chart : list SensorDataPoint, displayed data = Some chart ∧ recent_suffix data chart.
Proof.
  intros Hasc Hne. unfold displayed.
  destruct (last data) as [latest|] eqn:Hlast;
    [|apply last_None in Hlast; contradiction].
  set (c := Num.sub (timestamp_ms latest) (Num.of_Z (WINDOW_SECONDS * 1000))).
  exists (List.filter (λ d, Num.geb (timestamp_ms d) c) data).
  split; [reflexivity|].
  destruct (filter_ascending c data Hasc) as [k Hk].
  assert (∀ a, a ∈ List.filter (λ d, Num.geb (timestamp_ms d) c) data →
               a ∈ data ∧ Num.geb (timestamp_ms a) c = true) as Hin.
  { intros a Ha. apply list_elem_of_In, List.filter_In in Ha as [Ha Hc].
    split; [now apply list_elem_of_In | exact Hc]. }
  assert (latest ∈ List.filter (λ d, Num.geb (timestamp_ms d) c) data) as Hlatest.
  { apply list_elem_of_In, List.filter_In. split.
    - apply list_elem_of_In, list_elem_of_lookup. exists (length data - 1)%nat.
      rewrite <- Hlast, last_lookup. f_equal. lia.
    - unfold c, Num.geb, Num.sub, Num.of_Z, WINDOW_SECONDS. simpl. lia. }
  split; [now exists k|]. split.
  - rewrite Hk. rewrite Hk in Hlatest. apply last_drop_lt.
    destruct (decide (k < length data)%nat) as [Hlt|Hge]; [exact Hlt|].
    rewrite drop_ge in Hlatest by lia. inversion Hlatest.
  - intros a b Ha Hb. apply Hin in Ha as [Ha _]. apply Hin in Hb as [_ Hb].
    apply list_elem_of_lookup in Ha as [i Ha].
    rewrite last_lookup in Hlast.
    pose proof (lookup_lt_Some _ _ _ Ha) as Hi.
    pose proof (Hasc i (length data - 1)%nat a latest ltac:(lia) Ha) as Hle.
    replace (Nat.pred (length data)) with (length data - 1)%nat in Hlast by lia.
    specialize (Hle Hlast).
    unfold c, Num.geb, Num.le, Num.sub, Num.of_Z, WINDOW_SECONDS in *. simpl in *. lia.
Qed.

(** X13. The polling effect of [App], src/src/App.tsx lines 21-48, on the
    buffers returned by [getAccData] and [getPpgData]: when the buffer is in
    ascending timestamp order and not empty, the poll shows a chart that is
    the buffer with entries removed from the front only, that ends with the
    buffer's latest entry, and whose timestamps are at most WINDOW_SECONDS
    apart; the collector is left as it was. *)
Theorem chart_is_recent_suffix (w : World) :
  allocated w →
  (ascending (accData w) → accData w ≠ [] →
   ∃ chart : list SensorDataPoint,
     pollAcc w = Some (Some chart, w) ∧ recent_suffix (accData w) chart) ∧
  (ascending (ppgData w) → ppgData w ≠ [] →
   ∃ chart : list SensorDataPoint,
     pollPpg w = Some (Some chart, w) ∧ recent_suffix (ppgData w) chart).
Proof.
  intros [Ha Hp _]. split; intros Hasc Hne.
  - destruct (displayed_suffix _ Hasc Hne) as (chart & Hchart & Hsuffix).
    exists chart. split; [|exact Hsuffix].
    now rewrite (pollAcc_run w Ha), Hchart.
  - destruct (displayed_suffix _ Hasc Hne) as (chart & Hchart & Hsuffix).
    exists chart. split; [|exact Hsuffix].
    now rewrite (pollPpg_run w Hp), Hchart.
Qed.

Lemma chart_is_recent_suffix_witness :
  let w :=
    {| arrays :=
         [[{| timestamp_ms := Num.of_Z 0; value := 1; type := 1 |};
           {| timestamp_ms := Num.of_Z 20000; value := 2; type := 1 |};
           {| timestamp_ms := Num.of_Z 40000; value := 3; type := 1 |}];
          []];
       this := this initial |} in
  ∃ chart : list SensorDataPoint,
    pollAcc w = Some (Some chart, w) ∧ recent_suffix (accData w) chart.
Proof.
  intros w.
  apply (chart_is_recent_suffix w).
  - split; simpl; lia.
  - intros i j a b Hij Ha Hb.
    destruct i as [|[|[|i]]], j as [|[|[|j]]]; simpl in Ha, Hb; try discriminate;
      try lia; injection Ha as <-; injection Hb as <-; unfold Num.le; simpl; lia.
  - discriminate.
Defined.

(** ** X14: timestamps on the grid of the genesis *)

Section Grid.

Variable t : Z.
Variable period : Num.t.
Variable data : World → list SensorDataPoint.

Hypothesis data_handled :
  ∀ now dataView w r w',
    handled now dataView w r w' →
    data w' = trimmed (data w ++ new_points (genesisTS (this w')) dataView t period).
Hypothesis data_frame :
  ∀ w w',
    arrays w' = arrays w → accDataPoints (this w') = accDataPoints (this w) →
    ppgDataPoints (this w') = ppgDataPoints (this w) → data w' = data w.

Lemma gridded_step (e : event) (w w' : World) :
  settled w → gridded t period data w →
  match e with Notification now _ => now ≠ 0 | _ => True end →
  perform e w = Some (tt, w') →
  gridded t period data w'.
Proof.
  intros Hw [Hnz Hgrid] Hclock Hrun.
  destruct (perform_cases e w w' (settled_allocated _ Hw) Hrun)
    as [(Harr & Hla & Hlp & _ & Hg) | (now & dataView & r & -> & Hvalid & Hfacts)].
  - unfold gridded. now rewrite (data_frame w w' Harr Hla Hlp), Hg.
  - pose proof (data_handled _ _ _ _ _ Hfacts) as Hdata.
    pose proof (handled_genesis _ _ _ _ _ Hfacts) as Hgen'.
    destruct (decide (packetType_of dataView = t)) as [Ht | Ht].
    + pose proof (with_genesis_lookup now (packetType_of dataView) w) as Hlook.
      rewrite <- Hgen', Ht in Hlook.
      unfold new_points in Hdata. rewrite Ht, Z.eqb_refl, Hlook in Hdata.
      cbn [nullish] in Hdata.
      match type of Hlook with _ = Some ?x => set (g := x) in * end.
      assert (g ≠ 0 ∧ ∀ g0, genesisTS (this w) !! t = Some g0 → g = g0) as [Hg Hsame].
      { unfold g. destruct (genesisTS (this w) !! t) as [g0|] eqn:Hg0.
        - specialize (Hnz g0 eq_refl). simpl.
          replace (g0 =? 0) with false by lia. split; [exact Hnz|]. now intros ? [= <-].
        - simpl. split; [exact Hclock | discriminate]. }
      split.
      * rewrite Hlook. now intros ? [= <-].
      * rewrite Hdata. apply Forall_forall. intros p Hp.
        apply trimmed_elem, elem_of_app in Hp as [Hp | Hp].
        -- rewrite Forall_forall in Hgrid.
           destruct (Hgrid p Hp) as (g0 & m & Hg0 & Hm & Hts).
           exists g, m. rewrite (Hsame g0 Hg0). now rewrite Hlook, (Hsame g0 Hg0).
        -- apply list_elem_of_lookup in Hp as [k Hp].
           apply decoded_points_lookup in Hp as [_ ->].
           exists g, (packetCounter_of dataView * 5 + Z.of_nat k).
           split; [exact Hlook|]. split; [|reflexivity].
           pose proof (packetCounter_range dataView). lia.
    + rewrite new_points_other, app_nil_r in Hdata by exact Ht.
      assert (genesisTS (this w') !! t = genesisTS (this w) !! t) as Hlook
        by (rewrite Hgen'; now apply with_genesis_lookup_ne).
      split; [now rewrite Hlook|].
      rewrite Hdata. apply Forall_forall. intros p Hp. apply trimmed_elem in Hp.
      rewrite Forall_forall in Hgrid.
      destruct (Hgrid p Hp) as (g0 & m & Hg0 & Hm & Hts).
      exists g0, m. now rewrite Hlook.
Qed.

End Grid.

Lemma gridded_initial (t : Z) (period : Num.t) (data : World → list SensorDataPoint) :
  data initial = [] → gridded t period data initial.
Proof.
  intros Hdata. split; [|rewrite Hdata; constructor].
  intros g. simpl. now rewrite lookup_empty.
Qed.

(** X14. [handleNotification], lines 86-150: in a session of a new
    collector whose clock never reads 0, every entry of the accelerometer
    buffer has the timestamp genesis + m * ACC_SAMPLE_PERIOD_MS for the
    genesis stored for the accelerometer and a whole m >= 0, and every entry
    of the PPG buffer has genesis + m * PPG_SAMPLE_PERIOD_MS for the PPG
    genesis: entries are never stamped before the genesis of their type nor
    off the sample grid, whatever packets arrive in whatever order. *)
Theorem timestamps_on_grid (es : list event) :
  wall_clock es →
  ∃ w : World,
    perform_all es initial = Some (tt, w) ∧
    Forall (on_grid (genesisTS (this w)) PACKET_TYPE_ACC ACC_SAMPLE_PERIOD_MS)
      (accData w) ∧
    Forall (on_grid (genesisTS (this w)) PACKET_TYPE_PPG PPG_SAMPLE_PERIOD_MS)
      (ppgData w).
Proof.
  intros Hclock. apply wall_clock_events in Hclock.
  destruct (perform_all_total es initial settled_initial) as (w & Hrun).
  exists w. split; [exact Hrun|].
  enough (gridded PACKET_TYPE_ACC ACC_SAMPLE_PERIOD_MS accData w ∧
          gridded PACKET_TYPE_PPG PPG_SAMPLE_PERIOD_MS ppgData w)
    as [[_ Ha] [_ Hp]] by now split.
  revert Hrun.
  apply (perform_all_invariant
           (λ w, gridded PACKET_TYPE_ACC ACC_SAMPLE_PERIOD_MS accData w ∧
                 gridded PACKET_TYPE_PPG PPG_SAMPLE_PERIOD_MS ppgData w)
           (λ e, match e with Notification now _ => now ≠ 0 | _ => True end));
    [| apply settled_initial | | exact Hclock].
  - clear. intros e w w' Hw [Ha Hp] HQ Hrun. split.
    + apply (gridded_step PACKET_TYPE_ACC ACC_SAMPLE_PERIOD_MS accData) with e w;
        try assumption.
      * intros now dataView w0 r w1 H. exact (handled_acc _ _ _ _ _ H).
      * intros w0 w1 Harr Hl _. unfold accData, contents. now rewrite Harr, Hl.
    + apply (gridded_step PACKET_TYPE_PPG PPG_SAMPLE_PERIOD_MS ppgData) with e w;
        try assumption.
      * intros now dataView w0 r w1 H. exact (handled_ppg _ _ _ _ _ H).
      * intros w0 w1 Harr _ Hl. unfold ppgData, contents. now rewrite Harr, Hl.
  - split; now apply gridded_initial.
Qed.

Lemma timestamps_on_grid_witness :
  ∃ w : World,
    perform_all [Notification 1000 [x01; x03; x00; x05; x00; x00];
                 Notification 1400 [x02; x00; x00; x07; x00; x00];
                 Notification 1800 [x01; x01; x00; x06; x00; x00]] initial =
      Some (tt, w) ∧
    Forall (on_grid (genesisTS (this w)) PACKET_TYPE_ACC ACC_SAMPLE_PERIOD_MS)
      (accData w) ∧
    Forall (on_grid (genesisTS (this w)) PACKET_TYPE_PPG PPG_SAMPLE_PERIOD_MS)
      (ppgData w).
Proof.
  apply timestamps_on_grid. repeat constructor; discriminate.
Defined.
